(** * GPU power management of vLLM: a shallow embedding of
      [vllm/power_management.py] and the properties of its phase controller.

    The Python module keeps one [GPUPowerManager] object whose methods talk to
    the NVML device-management library.  The embedding keeps

    - Python [int] as [Z], Python [float] as IEEE binary64 ([spec_float] with
      [prec = 53] and [emax = 1024]), the clocks that NVML reports as C
      [unsigned int]s, and [sum] in both forms that CPython has had,
    - the two dictionaries of the manager as [gmap Z Z],
    - every NVML entry point as a logged, fallible call against a description
      of the platform ([nvml]), and
    - mutation and exceptions through a small state-and-exception monad: an
      exception leaves the mutations made so far in place, as in Python. *)

From stdpp Require Import base option list gmap.
From Stdlib Require Import ZArith QArith Qpower Lia SpecFloat.

Local Open Scope Z_scope.

(** ** Python numbers *)

(** Python's [float] is binary64. *)
Abbreviation float := spec_float.

Definition float_add : float → float → float := SFadd 53 1024.
Definition float_div : float → float → float := SFdiv 53 1024.
(** [x > y] on floats; any comparison with a NaN is false. *)
Definition float_gt (x y : float) : bool := SFltb y x.

(** [float(n)] for an [int]: the nearest binary64, ties to even. *)
Definition float_of_int (n : Z) : float := binary_normalize 53 1024 n 0 false.

(** The exceptions that the modelled code can meet.  All of them are
    subclasses of [Exception], so [except Exception] and a bare [except]
    both catch every one of them. *)
Inductive exn :=
  | NVMLError
  | KeyError
  | AttributeError
  | OverflowError
  | ValueError.

Inductive outcome (A : Type) :=
  | Return (a : A)
  | Raise (e : exn).
Arguments Return {A} a.
Arguments Raise {A} e.

(** [a / b] on two [int]s with [b > 0]: CPython returns the correctly rounded
    binary64 of the exact quotient, whatever the size of the operands, and
    raises [OverflowError] when that quotient is too large for a float.
    [SFdiv] divides the integer significands directly, so the operands are
    not rounded beforehand. *)
Definition int_as_float (n : Z) : float :=
  match n with
  | Z0 => S754_zero false
  | Zpos p => S754_finite false p 0
  | Zneg p => S754_finite true p 0
  end.

Definition int_truediv (a b : Z) : outcome float :=
  match float_div (int_as_float a) (int_as_float b) with
  | S754_infinity _ => Raise OverflowError
  | q => Return q
  end.

(** [int(x)] on a float: truncation towards zero; infinities and NaN raise. *)
Definition int_of_float (x : float) : outcome Z :=
  match x with
  | S754_zero _ => Return 0
  | S754_finite s m e => Return (cond_Zopp s (Z.shiftl (Zpos m) e))
  | S754_infinity _ => Raise OverflowError
  | S754_nan => Raise ValueError
  end.

Definition float_sub : float → float → float := SFsub 53 1024.
(** [fabs(x)], [x >= y], [isfinite(x)] and the truth value of a float
    ([x != 0.0]; a NaN is true). *)
Definition float_abs : float → float := SFabs.
Definition float_ge (x y : float) : bool := SFleb y x.
Definition float_is_finite (x : float) : bool :=
  match x with
  | S754_zero _ | S754_finite _ _ _ => true
  | S754_infinity _ | S754_nan => false
  end.
Definition float_is_true (x : float) : bool :=
  match x with
  | S754_zero _ => false
  | _ => true
  end.

(** [sum(xs)] on a list of floats, up to CPython 3.11: the sum starts from
    the integer [0] and the floats are added from left to right. *)
Definition float_sum_plain (xs : list float) : float :=
  fold_left float_add xs (S754_zero false).

(** One round of the loop of [sum] from CPython 3.12 on (Neumaier's
    compensated summation): the running sum [hi] is updated as before, and
    the rounding error of the addition is collected in [c]. *)
Definition neumaier_step (acc : float * float) (x : float) : float * float :=
  let t := float_add acc.1 x in
  (t,
   if float_ge (float_abs acc.1) (float_abs x)
   then float_add acc.2 (float_add (float_sub acc.1 t) x)
   else float_add acc.2 (float_add (float_sub x t) acc.1)).

(** [sum(xs)] from CPython 3.12 on: the first float is added to the integer
    [0] as before, the others go through [neumaier_step], and the collected
    error is added at the end when it is non-zero and finite. *)
Definition float_sum_compensated (xs : list float) : float :=
  match xs with
  | [] => S754_zero false
  | x :: rest =>
      let acc :=
        fold_left neumaier_step rest
          (float_add (S754_zero false) x, S754_zero false) in
      if float_is_true acc.2 && float_is_finite acc.2
      then float_add acc.1 acc.2
      else acc.1
  end.

(** [sum(xs)] on a list of floats, for either kind of interpreter. *)
Definition float_sum (compensated : bool) (xs : list float) : float :=
  if compensated then float_sum_compensated xs else float_sum_plain xs.

(** The value of a C [unsigned int] read through [ctypes]: pynvml reads the
    clocks out of a [c_uint], so they lie in [0, 2^32). *)
Definition c_uint (n : Z) : Z := n mod 2 ^ 32.

(** ** Exact arithmetic, for what the specification says of the mean *)

(** The number a float stands for, [(-1)^s * m * 2^e], as a rational; zero
    and, by convention, the infinities and NaN give [0]. *)
Definition exact_value (x : float) : Q :=
  match x with
  | S754_finite s m e => (inject_Z (cond_Zopp s (Zpos m)) * 2 ^ e)%Q
  | _ => 0%Q
  end.

(** The arithmetic mean of a window as the specification words it: the sum
    of the numbers the samples stand for, divided by their count, without
    any rounding.  The code's own mean is [avg_tbt] below. *)
Definition arithmetic_mean (xs : list float) : Q :=
  (foldr Qplus 0 (exact_value <$> xs) / inject_Z (Z.of_nat (length xs)))%Q.

(** The sum of a list of integers. *)
Definition total (ns : list Z) : Z := foldr Z.add 0 ns.

(** A significand of 53 bits with an exponent in range. *)
Definition canonical53 (m : positive) (e : Z) : Prop :=
  2 ^ 52 ≤ Zpos m < 2 ^ 53 ∧ -1074 ≤ e ≤ 971.

(** Where a whole number [z] lies as a float: a significand [m] of 53 bits
    and an exponent [e <= 0] with [m = |z| * 2^(-e)]. *)
Definition holds_int (z : Z) (m : positive) (e : Z) : Prop :=
  canonical53 m e ∧ -52 ≤ e ≤ 0 ∧ Zpos m = Z.abs z * 2 ^ (- e).

(** ** The device-management interface *)

(** A device handle stands for the device index it was obtained for. *)
Definition handle := Z.

(** What the log of the device-management interface records: one entry per
    call, in call order, whether the call succeeds or raises. *)
Inductive nvml_call :=
  | nvmlInit_call
  | nvmlShutdown_call
  | GetHandleByIndex_call (index : Z)
  | GetMaxClockInfo_call (h : handle)
  | GetClockInfo_call (h : handle)
  | SetGpuLockedClocks_call (h : handle) (min_clock max_clock : Z)
  | ResetGpuLockedClocks_call (h : handle).

(** The platform the module runs on: whether the import of
    [vllm.third_party.pynvml] succeeded, whether the interpreter sums floats
    with compensation (CPython 3.12 and later), how many CUDA devices torch
    sees, and which NVML calls succeed ([None] or [false]: the call raises
    [NVMLError]).  The clock queries give the word that the driver writes;
    the binding reads it as a C [unsigned int]. *)
Record nvml := {
  NVML_AVAILABLE : bool;
  compensated_sum : bool;
  cuda_device_count : nat;
  init_ok : bool;
  shutdown_ok : bool;
  handle_ok : Z → bool;
  max_clock_info : handle → option Z;
  clock_info : handle → option Z;
  set_locked_ok : handle → bool;
  reset_locked_ok : handle → bool
}.

(** ** State and exceptions *)

(** A computation over a mutable state [S] and the call log. *)
Definition M (S A : Type) : Type :=
  S * list nvml_call → outcome A * (S * list nvml_call).

Definition ret {S A} (a : A) : M S A := λ σ, (Return a, σ).

Definition bind {S A B} (m : M S A) (k : A → M S B) : M S B :=
  λ σ, match m σ with
       | (Return a, σ') => k a σ'
       | (Raise e, σ') => (Raise e, σ')
       end.

Definition raise {S A} (e : exn) : M S A := λ σ, (Raise e, σ).

(** [try: body / except Exception: handler]. *)
Definition try_except {S A} (body : M S A) (handler : exn → M S A) : M S A :=
  λ σ, match body σ with
       | (Return a, σ') => (Return a, σ')
       | (Raise e, σ') => handler e σ'
       end.

Definition get {S} : M S S := λ σ, (Return σ.1, σ).
Definition modify {S} (f : S → S) : M S unit := λ σ, (Return tt, (f σ.1, σ.2)).
Definition of_outcome {S A} (o : outcome A) : M S A := λ σ, (o, σ).

(** One call of the interface: logged, then it returns or raises. *)
Definition call {S A} (c : nvml_call) (result : option A) : M S A :=
  λ σ, (match result with Some a => Return a | None => Raise NVMLError end,
        (σ.1, σ.2 ++ [c])).

Declare Scope py_scope.
Delimit Scope py_scope with py.
Notation "x <- m ;; k" := (bind m (λ x, k))
  (at level 100, m at next level, k at level 200, right associativity) : py_scope.
Notation "m ;; k" := (bind m (λ _, k))
  (at level 100, k at level 200, right associativity) : py_scope.
Local Open Scope py_scope.

(** [for x in xs: body x]. *)
Fixpoint for_each {S A} (xs : list A) (body : A → M S unit) : M S unit :=
  match xs with
  | [] => ret tt
  | x :: xs' => body x ;; for_each xs' body
  end.

Definition guard_ok (b : bool) : option unit := if b then Some tt else None.

Section Nvml.
Context (w : nvml) {S : Type}.

Definition nvmlInit : M S unit := call nvmlInit_call (guard_ok (init_ok w)).
Definition nvmlShutdown : M S unit :=
  call nvmlShutdown_call (guard_ok (shutdown_ok w)).
Definition nvmlDeviceGetHandleByIndex (index : Z) : M S handle :=
  call (GetHandleByIndex_call index)
       (if handle_ok w index then Some index else None).
Definition nvmlDeviceGetMaxClockInfo (h : handle) : M S Z :=
  call (GetMaxClockInfo_call h) (c_uint <$> max_clock_info w h).
Definition nvmlDeviceGetClockInfo (h : handle) : M S Z :=
  call (GetClockInfo_call h) (c_uint <$> clock_info w h).
Definition nvmlDeviceSetGpuLockedClocks (h : handle) (lo hi : Z) : M S unit :=
  call (SetGpuLockedClocks_call h lo hi) (guard_ok (set_locked_ok w h)).
Definition nvmlDeviceResetGpuLockedClocks (h : handle) : M S unit :=
  call (ResetGpuLockedClocks_call h) (guard_ok (reset_locked_ok w h)).
End Nvml.

(** Runs [m] on a local state that starts as [init]; the log is shared and an
    exception of [m] propagates. *)
Definition with_local {S T A} (init : T) (m : M T A) : M S (A * T) :=
  λ σ, match m (init, σ.2) with
       | (Return a, (t, log)) => (Return (a, t), (σ.1, log))
       | (Raise e, (_, log)) => (Raise e, (σ.1, log))
       end.

(** ** The manager object *)

(** The attributes that [__init__] sets only on the enabled path. *)
Record runtime := {
  device_ids : list Z;
  original_clocks : gmap Z Z;
  target_clocks : gmap Z Z;
  in_decode_phase : bool;
  tbt_values : list float
}.

(** A [GPUPowerManager] instance.  On the disabled path [__init__] returns
    before the remaining attributes exist: [attrs] is [None], and reading one
    of them raises [AttributeError]. *)
Record GPUPowerManager := {
  enabled : bool;
  decode_clock_reduction_percent : Z;
  monitor_tbt : bool;
  tbt_threshold_ms : float;
  attrs : option runtime
}.

Definition with_attrs (f : runtime → runtime) (self : GPUPowerManager)
    : GPUPowerManager :=
  {| enabled := enabled self;
     decode_clock_reduction_percent := decode_clock_reduction_percent self;
     monitor_tbt := monitor_tbt self;
     tbt_threshold_ms := tbt_threshold_ms self;
     attrs := f <$> attrs self |}.

Definition set_in_decode_phase (b : bool) (r : runtime) : runtime :=
  {| device_ids := device_ids r;
     original_clocks := original_clocks r;
     target_clocks := target_clocks r;
     in_decode_phase := b;
     tbt_values := tbt_values r |}.

Definition set_tbt_values (vs : list float) (r : runtime) : runtime :=
  {| device_ids := device_ids r;
     original_clocks := original_clocks r;
     target_clocks := target_clocks r;
     in_decode_phase := in_decode_phase r;
     tbt_values := vs |}.

(** [self.x] for an attribute of the enabled path. *)
Definition attr {A} (f : runtime → A) : M GPUPowerManager A :=
  self <- get ;;
  match attrs self with
  | Some r => ret (f r)
  | None => raise AttributeError
  end.

(** [d[k]] on a dictionary. *)
Definition getitem {S} (d : gmap Z Z) (k : Z) : M S Z :=
  match d !! k with
  | Some v => ret v
  | None => raise KeyError
  end.

(** [list(range(n))]. *)
Definition range (n : nat) : list Z := Z.of_nat <$> seq 0 n.

(** The target clock of the decode phase,
    [int(max_sm_clock * (100 - decode_clock_reduction_percent) / 100)]. *)
Definition target_clock_of (max_sm_clock reduction_percent : Z) : outcome Z :=
  match int_truediv (max_sm_clock * (100 - reduction_percent)) 100 with
  | Return q => int_of_float q
  | Raise e => Raise e
  end.

Module GPUPowerManager.
Section Methods.
Context (w : nvml).

(** The body of the loop of [__init__] over [self.device_ids]; the state is
    the pair of dictionaries [(original_clocks, target_clocks)]. *)
Definition init_clock_info (reduction_percent device_id : Z)
    : M (gmap Z Z * gmap Z Z) unit :=
  handle <- nvmlDeviceGetHandleByIndex w device_id ;;
  max_sm_clock <- nvmlDeviceGetMaxClockInfo w handle ;;
  current_sm_clock <- nvmlDeviceGetClockInfo w handle ;;
  modify (λ d, (<[device_id := current_sm_clock]> d.1, d.2)) ;;
  target_clock <- of_outcome (target_clock_of max_sm_clock reduction_percent) ;;
  modify (λ d, (d.1, <[device_id := target_clock]> d.2)).

(** [GPUPowerManager(enabled, ...)]: the object that [__init__] leaves
    behind, or the exception that leaves it. *)
Definition __init__ {S} (enabled : bool) (decode_clock_reduction_percent : Z)
    (monitor_tbt : bool) (tbt_threshold_ms : float)
    (device_ids : option (list Z)) : M S GPUPowerManager :=
  let self_enabled := enabled && NVML_AVAILABLE w in
  if negb self_enabled then
    ret {| enabled := self_enabled;
           decode_clock_reduction_percent := decode_clock_reduction_percent;
           monitor_tbt := monitor_tbt;
           tbt_threshold_ms := tbt_threshold_ms;
           attrs := None |}
  else
    nvmlInit w ;;
    let self_device_ids :=
      match device_ids with
      | None => range (cuda_device_count w)
      | Some ids => ids
      end in
    clocks <- with_local (∅, ∅)
                (for_each self_device_ids
                   (init_clock_info decode_clock_reduction_percent)) ;;
    ret {| enabled := self_enabled;
           decode_clock_reduction_percent := decode_clock_reduction_percent;
           monitor_tbt := monitor_tbt;
           tbt_threshold_ms := tbt_threshold_ms;
           attrs := Some {| device_ids := self_device_ids;
                            original_clocks := clocks.2.1;
                            target_clocks := clocks.2.2;
                            in_decode_phase := false;
                            tbt_values := [] |} |}.

(** The body of the loop of [reset_clocks]: the handle is obtained outside
    the [try] block, the reset call inside it. *)
Definition reset_device (device_id : Z) : M GPUPowerManager unit :=
  handle <- nvmlDeviceGetHandleByIndex w device_id ;;
  try_except (nvmlDeviceResetGpuLockedClocks w handle) (λ _, ret tt).

Definition reset_clocks : M GPUPowerManager unit :=
  self <- get ;;
  if negb (enabled self) then ret tt
  else
    ids <- attr device_ids ;;
    for_each ids reset_device.

(** [__del__]: runs when the object is finalized. *)
Definition __del__ : M GPUPowerManager unit :=
  self <- get ;;
  if enabled self then
    reset_clocks ;;
    try_except (nvmlShutdown w) (λ _, ret tt)
  else ret tt.

(** The body of the loop of [enter_decode_phase].  In the source the call
    [nvmlDeviceSetGpuLockedClocks(handle, target_clock, target_clock)]
    inside the [try] block is commented out: the block only writes a line
    to the logger. *)
Definition lock_device (device_id : Z) : M GPUPowerManager unit :=
  handle <- nvmlDeviceGetHandleByIndex w device_id ;;
  targets <- attr target_clocks ;;
  target_clock <- getitem targets device_id ;;
  try_except (ret tt) (λ _, ret tt).

Definition enter_decode_phase : M GPUPowerManager unit :=
  self <- get ;;
  if negb (enabled self) then ret tt
  else
    in_decode <- attr in_decode_phase ;;
    if in_decode then ret tt
    else
      ids <- attr device_ids ;;
      for_each ids lock_device ;;
      modify (with_attrs (set_in_decode_phase true)).

Definition enter_prefill_phase : M GPUPowerManager unit :=
  self <- get ;;
  if negb (enabled self) then ret tt
  else
    in_decode <- attr in_decode_phase ;;
    if negb in_decode then ret tt
    else
      reset_clocks ;;
      modify (with_attrs (set_in_decode_phase false)).

(** [avg_tbt = sum(self.tbt_values) / len(self.tbt_values)]. *)
Definition avg_tbt (values : list float) : float :=
  float_div (float_sum (compensated_sum w) values)
    (float_of_int (Z.of_nat (length values))).

(** [self.tbt_values.append(tbt_ms)] followed by the eviction
    [if len(self.tbt_values) > 10: self.tbt_values.pop(0)]. *)
Definition append_evict (tbt_ms : float) (values : list float) : list float :=
  let values := values ++ [tbt_ms] in
  if (10 <? length values)%nat then tail values else values.

(** The body runs under [with self.tbt_lock]; the model is sequential, so
    the lock does nothing, and it is released when an exception leaves the
    block. *)
Definition record_tbt (tbt_ms : float) : M GPUPowerManager unit :=
  self <- get ;;
  if negb (enabled self) || negb (monitor_tbt self) then ret tt
  else
    values <- attr tbt_values ;;
    modify (with_attrs (set_tbt_values (append_evict tbt_ms values))) ;;
    in_decode <- attr in_decode_phase ;;
    values <- attr tbt_values ;;
    if in_decode && (3 <=? length values)%nat then
      if float_gt (avg_tbt values) (tbt_threshold_ms self) then
        reset_clocks ;;
        modify (with_attrs (set_in_decode_phase false))
      else ret tt
    else ret tt.
End Methods.
End GPUPowerManager.

(** ** The module-level instance and its call surface *)

Section ModuleLevel.
Context (w : nvml).

(** Runs a method on the object bound to the global [_power_manager], if
    there is one: [if _power_manager is not None: _power_manager.f()]. *)
Definition on_power_manager (method : M GPUPowerManager unit)
    : M (option GPUPowerManager) unit :=
  λ σ, match σ.1 with
       | Some self =>
           match method (self, σ.2) with
           | (o, (self', log)) => (o, (Some self', log))
           end
       | None => (Return tt, σ)
       end.

(** The finalizer of an object that has just lost its last reference:
    CPython runs [__del__] at once and ignores an exception that leaves
    it. *)
Definition finalize {S} (self : GPUPowerManager) : M S unit :=
  λ σ, match GPUPowerManager.__del__ w (self, σ.2) with
       | (_, (_, log)) => (Return tt, (σ.1, log))
       end.

(** [initialize_power_manager(...)].  The assignment
    [_power_manager = None] drops the module's reference to the previous
    instance, and the instance is finalized there exactly when that was its
    last reference.  Whether it was is not decided by this module (the
    previous call returned the instance to its caller), so it is the input
    [last_reference]. *)
Definition initialize_power_manager (last_reference : bool)
    (enabled : bool) (decode_clock_reduction_percent : Z)
    (monitor_tbt : bool) (tbt_threshold_ms : float)
    (device_ids : option (list Z))
    : M (option GPUPowerManager) GPUPowerManager :=
  previous <- get ;;
  match previous with
  | Some old =>
      modify (λ _, None) ;;
      if last_reference then finalize old else ret tt
  | None => ret tt
  end ;;
  self <- GPUPowerManager.__init__ w enabled decode_clock_reduction_percent
            monitor_tbt tbt_threshold_ms device_ids ;;
  modify (λ _, Some self) ;;
  ret self.

Definition get_power_manager : M (option GPUPowerManager) (option GPUPowerManager) :=
  get.

Definition enter_decode_phase : M (option GPUPowerManager) unit :=
  on_power_manager (GPUPowerManager.enter_decode_phase w).

Definition enter_prefill_phase : M (option GPUPowerManager) unit :=
  on_power_manager (GPUPowerManager.enter_prefill_phase w).

Definition record_tbt (tbt_ms : float) : M (option GPUPowerManager) unit :=
  on_power_manager (GPUPowerManager.record_tbt w tbt_ms).
End ModuleLevel.

(** ** Sequences of calls from the inference loop *)

Inductive request :=
  | EnterDecode
  | EnterPrefill
  | RecordTbt (tbt_ms : float).

Definition perform (w : nvml) (r : request) : M GPUPowerManager unit :=
  match r with
  | EnterDecode => GPUPowerManager.enter_decode_phase w
  | EnterPrefill => GPUPowerManager.enter_prefill_phase w
  | RecordTbt tbt_ms => GPUPowerManager.record_tbt w tbt_ms
  end.

(** A caller that issues the requests one after the other and carries on
    after an exception; the result lists the outcome of every call. *)
Fixpoint serve (w : nvml) (rs : list request) (σ : GPUPowerManager * list nvml_call)
    : list (outcome unit) * (GPUPowerManager * list nvml_call) :=
  match rs with
  | [] => ([], σ)
  | r :: rs' =>
      match perform w r σ with
      | (o, σ') =>
          match serve w rs' σ' with
          | (os, σ'') => (o :: os, σ'')
          end
      end
  end.

(** The latency window of an object, when it has one. *)
Definition window (self : GPUPowerManager) : option (list float) :=
  tbt_values <$> attrs self.

(** The phase of an object, when it has one: [true] is Decode. *)
Definition phase (self : GPUPowerManager) : option bool :=
  in_decode_phase <$> attrs self.

(** The samples that a sequence of requests records. *)
Definition samples (rs : list request) : list float :=
  omap (λ req, match req with RecordTbt x => Some x | _ => None end) rs.

(** What the requests never change: the configuration of the object and its
    device records. *)
Definition config_of (self : GPUPowerManager) :=
  (enabled self, decode_clock_reduction_percent self, monitor_tbt self,
   tbt_threshold_ms self,
   (λ r, (device_ids r, original_clocks r, target_clocks r)) <$> attrs self).

(** The calls that a full clock reset issues for the devices [ids]. *)
Definition reset_calls (ids : list Z) : list nvml_call :=
  ids ≫= λ d, [GetHandleByIndex_call d; ResetGpuLockedClocks_call d].

(** ** Platforms and objects used in the scenarios *)

(** A machine with two devices whose maximum SM clock is 2000 MHz and on which
    every call succeeds. *)
Definition two_gpus : nvml :=
  {| NVML_AVAILABLE := true;
     compensated_sum := false;
     cuda_device_count := 2;
     init_ok := true;
     shutdown_ok := true;
     handle_ok := λ _, true;
     max_clock_info := λ _, Some 2000;
     clock_info := λ _, Some 1500;
     set_locked_ok := λ _, true;
     reset_locked_ok := λ _, true |}.

(** The same machine without the NVML bindings: the import failed. *)
Definition no_bindings : nvml :=
  {| NVML_AVAILABLE := false;
     compensated_sum := false;
     cuda_device_count := 2;
     init_ok := false;
     shutdown_ok := false;
     handle_ok := λ _, false;
     max_clock_info := λ _, None;
     clock_info := λ _, None;
     set_locked_ok := λ _, false;
     reset_locked_ok := λ _, false |}.

(** The bindings import, but the driver is not loaded: [nvmlInit] raises. *)
Definition no_driver : nvml :=
  {| NVML_AVAILABLE := true;
     compensated_sum := false;
     cuda_device_count := 2;
     init_ok := false;
     shutdown_ok := false;
     handle_ok := λ _, false;
     max_clock_info := λ _, None;
     clock_info := λ _, None;
     set_locked_ok := λ _, false;
     reset_locked_ok := λ _, false |}.

(** [two_gpus] after device 0 has dropped off the bus: its handle can no
    longer be obtained. *)
Definition gpu0_lost : nvml :=
  {| NVML_AVAILABLE := true;
     compensated_sum := false;
     cuda_device_count := 2;
     init_ok := true;
     shutdown_ok := true;
     handle_ok := λ d, negb (d =? 0);
     max_clock_info := λ _, Some 2000;
     clock_info := λ _, Some 1500;
     set_locked_ok := λ _, true;
     reset_locked_ok := λ _, true |}.

(** [two_gpus] with a device 0 that refuses to reset its locked clocks. *)
Definition gpu0_reset_fails : nvml :=
  {| NVML_AVAILABLE := true;
     compensated_sum := false;
     cuda_device_count := 2;
     init_ok := true;
     shutdown_ok := true;
     handle_ok := λ _, true;
     max_clock_info := λ _, Some 2000;
     clock_info := λ _, Some 1500;
     set_locked_ok := λ _, true;
     reset_locked_ok := λ d, negb (d =? 0) |}.

(** The object that
    [GPUPowerManager(enabled=True, decode_clock_reduction_percent=5,
     monitor_tbt=True, tbt_threshold_ms=100.0)] builds on [two_gpus], in the
    given phase and with the given latency window. *)
Definition manager_on_two_gpus (in_decode : bool) (values : list float)
    : GPUPowerManager :=
  {| enabled := true;
     decode_clock_reduction_percent := 5;
     monitor_tbt := true;
     tbt_threshold_ms := float_of_int 100;
     attrs := Some {| device_ids := [0; 1];
                      original_clocks := <[1 := 1500]> (<[0 := 1500]> ∅);
                      target_clocks := <[1 := 1900]> (<[0 := 1900]> ∅);
                      in_decode_phase := in_decode;
                      tbt_values := values |} |}.

(** The same platform under CPython 3.12 or later, where [sum] compensates
    the rounding errors of its additions. *)
Definition with_compensated_sum (w : nvml) : nvml :=
  {| NVML_AVAILABLE := NVML_AVAILABLE w;
     compensated_sum := true;
     cuda_device_count := cuda_device_count w;
     init_ok := init_ok w;
     shutdown_ok := shutdown_ok w;
     handle_ok := handle_ok w;
     max_clock_info := max_clock_info w;
     clock_info := clock_info w;
     set_locked_ok := set_locked_ok w;
     reset_locked_ok := reset_locked_ok w |}.

(** The floats that Python computes for [1/3] and reads from the literals
    [131.23], [66.89], [131.08] and [70.8]. *)
Definition one_third : float := S754_finite false 6004799503160661 (-54).
Definition tbt_131_23 : float := S754_finite false 4617245149217423 (-45).
Definition tbt_66_89 : float := S754_finite false 4706965298043945 (-46).
Definition tbt_131_08 : float := S754_finite false 4611967493404099 (-45).
Definition tbt_70_8 : float := S754_finite false 4982107087778611 (-46).

(** The object of [manager_on_two_gpus], built with another threshold. *)
Definition manager_with_threshold (thr : float) (in_decode : bool)
    (values : list float) : GPUPowerManager :=
  {| enabled := true;
     decode_clock_reduction_percent := 5;
     monitor_tbt := true;
     tbt_threshold_ms := thr;
     attrs := attrs (manager_on_two_gpus in_decode values) |}.

(** ** Vocabulary of the further properties *)

(** The device identifiers that an object manages; none when it has no
    device record. *)
Definition managed_devices (self : GPUPowerManager) : list Z :=
  default [] (device_ids <$> attrs self).

(** The two kinds of call that the loops of [enter_decode_phase] and
    [reset_clocks] contain: a handle look-up and a reset of the locked
    clocks. *)
Definition transition_call (c : nvml_call) : bool :=
  match c with
  | GetHandleByIndex_call _ | ResetGpuLockedClocks_call _ => true
  | _ => false
  end.

(** The calls of a constructor run that succeeds for the devices [ids]. *)
Definition init_calls (ids : list Z) : list nvml_call :=
  nvmlInit_call
  :: (ids ≫= λ d, [GetHandleByIndex_call d; GetMaxClockInfo_call d;
                   GetClockInfo_call d]).

(** An enabled object with its device record complete: every managed device
    has a target clock. *)
Definition complete (self : GPUPowerManager) : Prop :=
  enabled self = true
  ∧ ∃ r, attrs self = Some r
         ∧ ∀ d, d ∈ device_ids r → is_Some (target_clocks r !! d).

(** * Properties *)

(** ** The monad and the loops *)

Local Arguments Nat.leb : simpl never.
Local Arguments Nat.ltb : simpl never.

Ltac unfold_monad :=
  cbv beta iota zeta delta
    [bind ret get modify raise attr try_except of_outcome call getitem
     with_local];
  simpl.

(** Rewrites with the known values of the fields of an object. *)
Ltac rew_fields :=
  simpl;
  repeat match goal with
    | H : attrs ?s = _ |- context [attrs ?s] => rewrite H; simpl
    | H : enabled ?s = _ |- context [enabled ?s] => rewrite H; simpl
    | H : monitor_tbt ?s = _ |- context [monitor_tbt ?s] => rewrite H; simpl
    end.

Lemma for_each_app {S A} (xs ys : list A) (body : A → M S unit) σ :
  for_each (xs ++ ys) body σ
  = match for_each xs body σ with
    | (Return _, σ') => for_each ys body σ'
    | (Raise e, σ') => (Raise e, σ')
    end.
Proof.
  revert σ. induction xs as [|x xs IH]; intros σ; simpl.
  - reflexivity.
  - unfold bind. destruct (body x σ) as [[[]|e] σ']; [apply IH | reflexivity].
Qed.

(** A loop whose body keeps the object keeps the object. *)
Lemma for_each_keeps_self {A} (body : A → M GPUPowerManager unit) :
  (∀ x σ, (body x σ).2.1 = σ.1) →
  ∀ xs σ, (for_each xs body σ).2.1 = σ.1.
Proof.
  intros Hbody xs. induction xs as [|x xs IH]; intros σ; simpl; [reflexivity|].
  unfold bind. specialize (Hbody x σ).
  destruct (body x σ) as [[[]|e] σ']; simpl in *; [|exact Hbody].
  rewrite IH. exact Hbody.
Qed.

Lemma reset_device_keeps_self w d σ :
  (GPUPowerManager.reset_device w d σ).2.1 = σ.1.
Proof.
  unfold GPUPowerManager.reset_device, nvmlDeviceGetHandleByIndex,
    nvmlDeviceResetGpuLockedClocks.
  unfold_monad. destruct (handle_ok w d); simpl; [|reflexivity].
  destruct (reset_locked_ok w d); reflexivity.
Qed.

Lemma lock_device_keeps_self w d σ :
  (GPUPowerManager.lock_device w d σ).2.1 = σ.1.
Proof.
  unfold GPUPowerManager.lock_device, nvmlDeviceGetHandleByIndex.
  unfold_monad. destruct (handle_ok w d); simpl; [|reflexivity].
  destruct (attrs σ.1) as [r|]; simpl; [|reflexivity].
  destruct (target_clocks r !! d); reflexivity.
Qed.

Lemma reset_clocks_keeps_self w σ :
  (GPUPowerManager.reset_clocks w σ).2.1 = σ.1.
Proof.
  unfold GPUPowerManager.reset_clocks. unfold_monad.
  destruct (enabled σ.1); simpl; [|reflexivity].
  destruct (attrs σ.1) as [r|]; simpl; [|reflexivity].
  apply for_each_keeps_self. apply reset_device_keeps_self.
Qed.

(** With every handle at hand the reset loop visits every device, whatever
    the reset calls themselves do. *)
Lemma reset_loop_complete w ids self log :
  (∀ d, d ∈ ids → handle_ok w d = true) →
  for_each ids (GPUPowerManager.reset_device w) (self, log)
  = (Return tt, (self, log ++ reset_calls ids)).
Proof.
  revert log. induction ids as [|d ids IH]; intros log Hok; simpl.
  - unfold ret. by rewrite app_nil_r.
  - unfold bind at 1.
    assert (GPUPowerManager.reset_device w d (self, log)
            = (Return tt, (self, log ++ [GetHandleByIndex_call d;
                                         ResetGpuLockedClocks_call d]))) as ->.
    { unfold GPUPowerManager.reset_device, nvmlDeviceGetHandleByIndex,
        nvmlDeviceResetGpuLockedClocks.
      unfold_monad. rewrite (Hok d) by set_solver. simpl.
      rewrite <- app_assoc. simpl.
      destruct (reset_locked_ok w d); reflexivity. }
    rewrite IH by set_solver.
    unfold reset_calls. simpl. by rewrite <- app_assoc.
Qed.

Lemma reset_clocks_complete w self r log :
  enabled self = true → attrs self = Some r →
  (∀ d, d ∈ device_ids r → handle_ok w d = true) →
  GPUPowerManager.reset_clocks w (self, log)
  = (Return tt, (self, log ++ reset_calls (device_ids r))).
Proof.
  intros He Ha Hok. unfold GPUPowerManager.reset_clocks. unfold_monad.
  rewrite He. simpl. rewrite Ha. simpl. by apply reset_loop_complete.
Qed.

(** ** What the constructor records *)

(** One successful round of the constructor's loop. *)
Lemma init_clock_info_returns w reduction d clocks log clocks' log' :
  GPUPowerManager.init_clock_info w reduction d (clocks, log)
    = (Return (), (clocks', log')) →
  ∃ m t,
    max_clock_info w d = Some m
    ∧ target_clock_of (c_uint m) reduction = Return t
    ∧ clocks'.2 = <[d := t]> clocks.2.
Proof.
  unfold GPUPowerManager.init_clock_info, nvmlDeviceGetHandleByIndex,
    nvmlDeviceGetMaxClockInfo, nvmlDeviceGetClockInfo.
  unfold_monad.
  destruct (handle_ok w d); simpl; [|discriminate].
  destruct (max_clock_info w d) as [m|]; simpl; [|discriminate].
  destruct (clock_info w d) as [c|]; simpl; [|discriminate].
  destruct (target_clock_of (c_uint m) reduction) as [t|e] eqn:Ht; simpl;
    [|discriminate].
  intros Hrun. injection Hrun as <- _. by exists m, t.
Qed.

(** The loop of the constructor leaves, for every device it visits, the
    target clock computed from the maximum clock of that device. *)
Lemma init_loop_targets w reduction ids : ∀ clocks log clocks' log',
  for_each ids (GPUPowerManager.init_clock_info w reduction) (clocks, log)
    = (Return (), (clocks', log')) →
  ∀ d,
    (d ∈ ids →
     ∃ m t, max_clock_info w d = Some m
            ∧ target_clock_of (c_uint m) reduction = Return t
            ∧ clocks'.2 !! d = Some t)
    ∧ (d ∉ ids → clocks'.2 !! d = clocks.2 !! d).
Proof.
  induction ids as [|d0 ids IH]; intros clocks log clocks' log' Hrun d.
  - simpl in Hrun. injection Hrun as <- _.
    split; [intros Hd; by apply elem_of_nil in Hd | done].
  - simpl in Hrun. unfold bind at 1 in Hrun.
    destruct (GPUPowerManager.init_clock_info w reduction d0 (clocks, log))
      as [[[]|e] [clocks1 log1]] eqn:Hbody; [|discriminate].
    destruct (init_clock_info_returns _ _ _ _ _ _ _ Hbody)
      as (m0 & t0 & Hm0 & Ht0 & Hclocks1).
    destruct (IH _ _ _ _ Hrun d) as [Hin Hout].
    destruct (decide (d ∈ ids)) as [Hd|Hd].
    + split; [intros _; by apply Hin|].
      intros Hd0. apply not_elem_of_cons in Hd0 as [_ Hd0]. by destruct Hd0.
    + rewrite (Hout Hd), Hclocks1. split.
      * intros Hd0. apply elem_of_cons in Hd0 as [->|Hd0]; [|by destruct Hd].
        exists m0, t0. by rewrite lookup_insert_eq.
      * intros Hd0. apply not_elem_of_cons in Hd0 as [Hd0 _].
        by rewrite lookup_insert_ne.
Qed.

(** The constructor returns either an inert object without device records,
    or an enabled object in Prefill with an empty window that holds, for
    every managed device, the target clock computed from the maximum clock
    of that device. *)
Lemma init_returns {S} w en reduction mon thr ids (σ σ' : S * list nvml_call)
    self :
  GPUPowerManager.__init__ w en reduction mon thr ids σ = (Return self, σ') →
  (enabled self = false ∧ attrs self = None)
  ∨ (enabled self = true
     ∧ ∃ r,
         attrs self = Some r
         ∧ in_decode_phase r = false
         ∧ tbt_values r = []
         ∧ ∀ d, d ∈ device_ids r →
             ∃ m t, max_clock_info w d = Some m
                    ∧ target_clock_of (c_uint m) reduction = Return t
                    ∧ target_clocks r !! d = Some t).
Proof.
  unfold GPUPowerManager.__init__.
  destruct (en && NVML_AVAILABLE w); simpl.
  2:{ unfold ret. intros Hrun. injection Hrun as <- _. by left. }
  unfold nvmlInit. unfold_monad.
  destruct (init_ok w); simpl; [|discriminate].
  destruct (for_each _ _ _) as [[[]|e] [clocks log']] eqn:Hloop; [|discriminate].
  intros Hrun. injection Hrun as <- _. right. split; [reflexivity|].
  eexists. split; [reflexivity|]. simpl.
  repeat split. intros d Hd.
  by destruct (init_loop_targets _ _ _ _ _ _ _ Hloop d) as [Hin _]; apply Hin.
Qed.

(** ** The inert manager *)

Lemma inert_perform w req self log :
  enabled self = false →
  perform w req (self, log) = (Return tt, (self, log)).
Proof.
  intros He. destruct req; simpl.
  - unfold GPUPowerManager.enter_decode_phase. unfold_monad. by rewrite He.
  - unfold GPUPowerManager.enter_prefill_phase. unfold_monad. by rewrite He.
  - unfold GPUPowerManager.record_tbt. unfold_monad. by rewrite He.
Qed.

Lemma inert_serve w rs self log :
  enabled self = false →
  serve w rs (self, log) = (replicate (length rs) (Return tt), (self, log)).
Proof.
  intros He. induction rs as [|req rs IH]; simpl; [reflexivity|].
  by rewrite inert_perform, IH.
Qed.

Lemma init_inert {S} w en reduction mon thr ids (σ : S * list nvml_call) :
  en && NVML_AVAILABLE w = false →
  GPUPowerManager.__init__ w en reduction mon thr ids σ
  = (Return {| enabled := false;
               decode_clock_reduction_percent := reduction;
               monitor_tbt := mon;
               tbt_threshold_ms := thr;
               attrs := None |}, σ).
Proof. intros He. unfold GPUPowerManager.__init__. by rewrite He. Qed.

(** C6.  When the NVML bindings are absent at load time, or the configuration
    says [enabled=False], the constructor returns an object without issuing a
    device-management call, and every finite sequence of
    [enter_decode_phase], [enter_prefill_phase] and [record_tbt] calls on that
    object returns normally and leaves both the call log and the object (and
    with it the latency bookkeeping) exactly as they were. *)
Theorem inert_manager_is_silent (w : nvml) (en : bool) (reduction : Z)
    (mon : bool) (thr : float) (ids : option (list Z)) (rs : list request)
    (log : list nvml_call) :
  NVML_AVAILABLE w = false ∨ en = false →
  ∃ self,
    GPUPowerManager.__init__ w en reduction mon thr ids ((), log)
      = (Return self, ((), log))
    ∧ enabled self = false
    ∧ window self = None
    ∧ serve w rs (self, log) = (replicate (length rs) (Return ()), (self, log)).
Proof.
  intros Hinert.
  assert (en && NVML_AVAILABLE w = false) as He.
  { destruct Hinert as [-> | ->]; [apply andb_false_r | reflexivity]. }
  eexists. split; [by apply init_inert|].
  repeat split. by apply inert_serve.
Qed.

Lemma inert_manager_is_silent_witness :
  ∃ self,
    GPUPowerManager.__init__ no_bindings true 5 true (float_of_int 100) None
      ((), [])
      = (Return self, ((), []))
    ∧ enabled self = false
    ∧ window self = None
    ∧ serve no_bindings
        [EnterDecode; RecordTbt (float_of_int 150); EnterPrefill] (self, [])
      = (replicate 3 (Return ()), (self, [])).
Proof.
  apply (inert_manager_is_silent no_bindings true 5 true (float_of_int 100)
           None [EnterDecode; RecordTbt (float_of_int 150); EnterPrefill] []).
  left. reflexivity.
Defined.

(** C2, as the code has it.  When the NVML bindings are absent at load time
    the constructor does not raise: it issues no device-management call,
    leaves the object without any device record, and the object is inert for
    good, since no later call on any platform changes it or reaches the
    interface. *)
Theorem missing_bindings_make_manager_inert (w : nvml) (en : bool)
    (reduction : Z) (mon : bool) (thr : float) (ids : option (list Z))
    (log : list nvml_call) :
  NVML_AVAILABLE w = false →
  ∃ self,
    GPUPowerManager.__init__ w en reduction mon thr ids ((), log)
      = (Return self, ((), log))
    ∧ enabled self = false
    ∧ attrs self = None
    ∧ ∀ w' rs log',
        serve w' rs (self, log')
        = (replicate (length rs) (Return ()), (self, log')).
Proof.
  intros Hna. eexists. split.
  - apply init_inert. rewrite Hna. apply andb_false_r.
  - repeat split. intros w' rs log'. by apply inert_serve.
Qed.

Lemma missing_bindings_make_manager_inert_witness :
  ∃ self,
    GPUPowerManager.__init__ no_bindings true 5 true (float_of_int 100)
      (Some [0; 1]) ((), [])
      = (Return self, ((), []))
    ∧ enabled self = false
    ∧ attrs self = None
    ∧ ∀ w' rs log',
        serve w' rs (self, log')
        = (replicate (length rs) (Return ()), (self, log')).
Proof.
  apply (missing_bindings_make_manager_inert no_bindings true 5 true
           (float_of_int 100) (Some [0; 1]) []).
  reflexivity.
Defined.

(** C2 fails when the bindings import but the interface cannot be
    initialized: [nvmlInit()] is called outside any [try], so on [no_driver]
    the constructor raises [NVMLError] to its caller. *)
Lemma init_failure_reaches_caller :
  GPUPowerManager.__init__ no_driver true 5 true (float_of_int 100) None
    ((), [])
  = (Raise NVMLError, ((), [nvmlInit_call])).
Proof. reflexivity. Qed.

(** ** The transition to Decode *)

(** [manager_on_two_gpus false []] is what the constructor builds on
    [two_gpus]. *)
Lemma constructor_on_two_gpus :
  GPUPowerManager.__init__ two_gpus true 5 true (float_of_int 100) None
    ((), [])
  = (Return (manager_on_two_gpus false []),
     ((), [nvmlInit_call;
           GetHandleByIndex_call 0; GetMaxClockInfo_call 0; GetClockInfo_call 0;
           GetHandleByIndex_call 1; GetMaxClockInfo_call 1; GetClockInfo_call 1])).
Proof. vm_compute. reflexivity. Qed.

Lemma lock_loop_only_gets_handles w ids σ :
  ∃ added,
    (for_each ids (GPUPowerManager.lock_device w) σ).2
      = (σ.1, σ.2 ++ added)
    ∧ Forall (λ c, ∃ d, c = GetHandleByIndex_call d) added.
Proof.
  revert σ. induction ids as [|d ids IH]; intros [self log]; simpl.
  - exists []. by rewrite app_nil_r.
  - unfold bind at 1.
    assert (∃ o, GPUPowerManager.lock_device w d (self, log)
                 = (o, (self, log ++ [GetHandleByIndex_call d]))) as [o ->].
    { unfold GPUPowerManager.lock_device, nvmlDeviceGetHandleByIndex.
      unfold_monad. destruct (handle_ok w d); simpl; [|by eexists].
      destruct (attrs self) as [r|]; simpl; [|by eexists].
      destruct (target_clocks r !! d); by eexists. }
    destruct o as [[]|e].
    + destruct (IH (self, log ++ [GetHandleByIndex_call d]))
        as (added & -> & Hadded).
      exists (GetHandleByIndex_call d :: added). simpl.
      rewrite <- app_assoc. split; [done|]. constructor; [by eexists|done].
    + exists [GetHandleByIndex_call d]. split; [done|].
      constructor; [by eexists|constructor].
Qed.

(** C1, refuted by the code.  On the two-device machine of scenario A
    (max clock 2000, reduction 5, target 1900) the constructor records the
    target 1900 for both devices, and the transition from Prefill to Decode
    obtains the two handles and records the phase, but issues no
    locked-range call at all.  That is so on every platform and for every
    object: [enter_decode_phase] adds nothing but handle look-ups to the
    log. *)
Theorem enter_decode_phase_sets_no_locked_range :
  GPUPowerManager.__init__ two_gpus true 5 true (float_of_int 100) None
    ((), [])
  = (Return (manager_on_two_gpus false []),
     ((), [nvmlInit_call;
           GetHandleByIndex_call 0; GetMaxClockInfo_call 0; GetClockInfo_call 0;
           GetHandleByIndex_call 1; GetMaxClockInfo_call 1; GetClockInfo_call 1]))
  ∧ GPUPowerManager.enter_decode_phase two_gpus (manager_on_two_gpus false [], [])
    = (Return (), (manager_on_two_gpus true [],
                   [GetHandleByIndex_call 0; GetHandleByIndex_call 1]))
  ∧ ∀ w self log, ∃ added,
      (GPUPowerManager.enter_decode_phase w (self, log)).2.2 = log ++ added
      ∧ Forall (λ c, ∃ d, c = GetHandleByIndex_call d) added.
Proof.
  split; [exact constructor_on_two_gpus|].
  split; [vm_compute; reflexivity|].
  intros w self log.
  unfold GPUPowerManager.enter_decode_phase. unfold_monad.
  destruct (enabled self); simpl; [|exists []; by rewrite app_nil_r].
  destruct (attrs self) as [r|] eqn:Ha; simpl; [|exists []; by rewrite app_nil_r].
  destruct (in_decode_phase r); simpl; [exists []; by rewrite app_nil_r|].
  rew_fields.
  destruct (lock_loop_only_gets_handles w (device_ids r) (self, log))
    as (added & Heq & Hadded).
  destruct (for_each (device_ids r) (GPUPowerManager.lock_device w) (self, log))
    as [[[]|e] [self' log']]; simpl in *; exists added; split; congruence.
Qed.

(** ** Recording a latency sample *)

(** What [record_tbt] does on an enabled, monitoring object: the window is
    appended to and trimmed, and only then the rollback test is made, on the
    new window. *)
Lemma record_tbt_enabled w x self r log :
  enabled self = true → monitor_tbt self = true → attrs self = Some r →
  let values := GPUPowerManager.append_evict x (tbt_values r) in
  let appended := with_attrs (set_tbt_values values) self in
  GPUPowerManager.record_tbt w x (self, log)
  = if in_decode_phase r && (3 <=? length values)%nat
       && float_gt (GPUPowerManager.avg_tbt w values) (tbt_threshold_ms self)
    then (GPUPowerManager.reset_clocks w ;;
          modify (with_attrs (set_in_decode_phase false))) (appended, log)
    else (Return (), (appended, log)).
Proof.
  intros He Hm Ha values appended.
  unfold GPUPowerManager.record_tbt.
  cbv beta iota zeta delta [bind ret get modify raise attr]. rew_fields.
  fold values.
  destruct (in_decode_phase r); simpl; [|reflexivity].
  destruct (3 <=? length values)%nat; simpl; [|reflexivity].
  destruct (float_gt _ _); reflexivity.
Qed.

(** The rollback branch of [record_tbt] is the Decode-to-Prefill transition
    of [enter_prefill_phase]. *)
Lemma rollback_is_enter_prefill w self r log :
  enabled self = true → attrs self = Some r → in_decode_phase r = true →
  (GPUPowerManager.reset_clocks w ;;
   modify (with_attrs (set_in_decode_phase false))) (self, log)
  = GPUPowerManager.enter_prefill_phase w (self, log).
Proof.
  intros He Ha Hd. unfold GPUPowerManager.enter_prefill_phase.
  cbv beta iota zeta delta [bind ret get modify raise attr]. rew_fields.
  by rewrite Hd.
Qed.

Lemma enter_prefill_from_decode w self r log :
  enabled self = true → attrs self = Some r → in_decode_phase r = true →
  (∀ d, d ∈ device_ids r → handle_ok w d = true) →
  GPUPowerManager.enter_prefill_phase w (self, log)
  = (Return (), (with_attrs (set_in_decode_phase false) self,
                 log ++ reset_calls (device_ids r))).
Proof.
  intros He Ha Hd Hok. unfold GPUPowerManager.enter_prefill_phase.
  cbv beta iota zeta delta [bind ret get modify raise attr]. rew_fields.
  rewrite Hd. simpl.
  by rewrite (reset_clocks_complete w self r log He Ha Hok).
Qed.

(** ** The latency window *)

Lemma append_evict_length x values :
  (length values ≤ 10)%nat →
  (length (GPUPowerManager.append_evict x values) ≤ 10)%nat.
Proof.
  intros Hlen. unfold GPUPowerManager.append_evict.
  destruct (10 <? length (values ++ [x]))%nat eqn:Hlt.
  - destruct values as [|v values]; simpl in *; [lia|].
    rewrite length_app. simpl. lia.
  - apply Nat.ltb_ge in Hlt. exact Hlt.
Qed.

(** Appending and evicting keeps the last ten samples of the extended
    window. *)
Lemma append_evict_drop x values :
  (length values ≤ 10)%nat →
  GPUPowerManager.append_evict x values
  = drop (length (values ++ [x]) - 10) (values ++ [x]).
Proof.
  intros Hlen. unfold GPUPowerManager.append_evict.
  rewrite length_app. simpl.
  destruct (10 <? length values + 1)%nat eqn:Hlt.
  - apply Nat.ltb_lt in Hlt.
    replace (length values + 1 - 10)%nat with 1%nat by lia.
    by destruct values.
  - apply Nat.ltb_ge in Hlt.
    replace (length values + 1 - 10)%nat with 0%nat by lia. reflexivity.
Qed.

Lemma enter_decode_phase_window w σ :
  window (GPUPowerManager.enter_decode_phase w σ).2.1 = window σ.1.
Proof.
  destruct σ as [self log]. unfold GPUPowerManager.enter_decode_phase.
  unfold_monad.
  destruct (enabled self); simpl; [|reflexivity].
  destruct (attrs self) as [r|] eqn:Ha; simpl; [|reflexivity].
  destruct (in_decode_phase r); simpl; [reflexivity|]. rew_fields.
  pose proof (for_each_keeps_self _ (lock_device_keeps_self w)
                (device_ids r) (self, log)) as Hself.
  destruct (for_each _ _ _) as [[[]|e] [self' log']]; simpl in *; subst self'.
  - unfold window, with_attrs. simpl. rewrite Ha. reflexivity.
  - reflexivity.
Qed.

Lemma enter_prefill_phase_window w σ :
  window (GPUPowerManager.enter_prefill_phase w σ).2.1 = window σ.1.
Proof.
  destruct σ as [self log]. unfold GPUPowerManager.enter_prefill_phase.
  cbv beta iota zeta delta [bind ret get modify raise attr]. simpl.
  destruct (enabled self); simpl; [|reflexivity].
  destruct (attrs self) as [r|] eqn:Ha; simpl; [|reflexivity].
  destruct (in_decode_phase r); simpl; [|reflexivity].
  pose proof (reset_clocks_keeps_self w (self, log)) as Hself.
  destruct (GPUPowerManager.reset_clocks w (self, log))
    as [[[]|e] [self' log']]; simpl in *; subst self'.
  - unfold window, with_attrs. simpl. rewrite Ha. reflexivity.
  - reflexivity.
Qed.

Lemma record_tbt_window w x σ :
  window (GPUPowerManager.record_tbt w x σ).2.1
  = if enabled σ.1 && monitor_tbt σ.1
    then GPUPowerManager.append_evict x <$> window σ.1
    else window σ.1.
Proof.
  destruct σ as [self log]. simpl.
  destruct (enabled self) eqn:He; simpl.
  2:{ unfold GPUPowerManager.record_tbt. unfold_monad. by rewrite He. }
  destruct (monitor_tbt self) eqn:Hm; simpl.
  2:{ unfold GPUPowerManager.record_tbt. unfold_monad. by rewrite He, Hm. }
  destruct (attrs self) as [r|] eqn:Ha.
  2:{ unfold GPUPowerManager.record_tbt. unfold_monad. rew_fields.
      unfold window. by rewrite Ha. }
  rewrite (record_tbt_enabled w x self r log He Hm Ha).
  set (appended := with_attrs _ self).
  assert (window appended
          = GPUPowerManager.append_evict x <$> window self) as Hwin.
  { unfold appended, window, with_attrs. simpl. by rewrite Ha. }
  destruct (_ && _ && _); [|exact Hwin].
  unfold bind.
  pose proof (reset_clocks_keeps_self w (appended, log)) as Hself.
  destruct (GPUPowerManager.reset_clocks w (appended, log))
    as [[[]|e] [self' log']]; simpl in *; subst self'; [|exact Hwin].
  rewrite <- Hwin. unfold window, with_attrs. simpl.
  by destruct (attrs self).
Qed.

Lemma config_of_with_attrs_phase b self :
  config_of (with_attrs (set_in_decode_phase b) self) = config_of self.
Proof. unfold config_of, with_attrs. simpl. by destruct (attrs self). Qed.

Lemma config_of_with_attrs_window vs self :
  config_of (with_attrs (set_tbt_values vs) self) = config_of self.
Proof. unfold config_of, with_attrs. simpl. by destruct (attrs self). Qed.

Lemma perform_keeps_config w req σ :
  config_of (perform w req σ).2.1 = config_of σ.1.
Proof.
  destruct σ as [self log]. destruct req; simpl.
  - unfold GPUPowerManager.enter_decode_phase. unfold_monad.
    destruct (enabled self); simpl; [|reflexivity].
    destruct (attrs self) as [r|] eqn:Ha; simpl; [|reflexivity].
    destruct (in_decode_phase r); simpl; [reflexivity|]. rew_fields.
    pose proof (for_each_keeps_self _ (lock_device_keeps_self w)
                  (device_ids r) (self, log)) as Hself.
    destruct (for_each _ _ _) as [[[]|e] [self' log']]; simpl in *;
      subst self'; [apply config_of_with_attrs_phase | reflexivity].
  - unfold GPUPowerManager.enter_prefill_phase.
    cbv beta iota zeta delta [bind ret get modify raise attr]. simpl.
    destruct (enabled self); simpl; [|reflexivity].
    destruct (attrs self) as [r|] eqn:Ha; simpl; [|reflexivity].
    destruct (in_decode_phase r); simpl; [|reflexivity].
    pose proof (reset_clocks_keeps_self w (self, log)) as Hself.
    destruct (GPUPowerManager.reset_clocks w (self, log))
      as [[[]|e] [self' log']]; simpl in *; subst self';
      [apply config_of_with_attrs_phase | reflexivity].
  - destruct (enabled self) eqn:He.
    2:{ unfold GPUPowerManager.record_tbt. unfold_monad. by rewrite He. }
    destruct (monitor_tbt self) eqn:Hm.
    2:{ unfold GPUPowerManager.record_tbt. unfold_monad. by rewrite He, Hm. }
    destruct (attrs self) as [r|] eqn:Ha.
    2:{ unfold GPUPowerManager.record_tbt. unfold_monad. by rew_fields. }
    rewrite (record_tbt_enabled w tbt_ms self r log He Hm Ha).
    set (appended := with_attrs _ self).
    assert (config_of appended = config_of self) as Hcfg
      by apply config_of_with_attrs_window.
    destruct (_ && _ && _); [|exact Hcfg].
    unfold bind.
    pose proof (reset_clocks_keeps_self w (appended, log)) as Hself.
    destruct (GPUPowerManager.reset_clocks w (appended, log))
      as [[[]|e] [self' log']]; simpl in *; subst self'; [|exact Hcfg].
    by rewrite config_of_with_attrs_phase.
Qed.

Lemma perform_window w req σ :
  window (perform w req σ).2.1
  = match req with
    | RecordTbt x =>
        if enabled σ.1 && monitor_tbt σ.1
        then GPUPowerManager.append_evict x <$> window σ.1
        else window σ.1
    | _ => window σ.1
    end.
Proof.
  destruct req; simpl.
  - apply enter_decode_phase_window.
  - apply enter_prefill_phase_window.
  - apply record_tbt_window.
Qed.

Lemma drop_last_ten_step (l ys : list float) :
  let kept := drop (length l - 10) l in
  drop (length (kept ++ ys) - 10) (kept ++ ys)
  = drop (length (l ++ ys) - 10) (l ++ ys).
Proof.
  intros kept. unfold kept.
  rewrite !drop_app, !length_app, !length_drop, drop_drop.
  destruct (decide (length l ≤ 10)%nat) as [Hle|Hgt].
  - replace (length l - 10)%nat with 0%nat by lia. simpl.
    f_equal; f_equal; lia.
  - f_equal; f_equal; lia.
Qed.

(** After any sequence of requests, an enabled and monitoring object holds
    the last ten of the samples it started with followed by the samples
    recorded since. *)
Lemma serve_window w rs : ∀ self log vs,
  enabled self = true → monitor_tbt self = true →
  window self = Some vs → (length vs ≤ 10)%nat →
  window (serve w rs (self, log)).2.1
  = Some (drop (length (vs ++ samples rs) - 10) (vs ++ samples rs)).
Proof.
  induction rs as [|req rs IH]; intros self log vs He Hm Hw Hlen.
  - simpl. rewrite app_nil_r, Hw.
    by replace (length vs - 10)%nat with 0%nat by lia.
  - simpl.
    pose proof (perform_keeps_config w req (self, log)) as Hcfg.
    pose proof (perform_window w req (self, log)) as Hwin.
    destruct (perform w req (self, log)) as [o [self' log']]. simpl in *.
    assert (enabled self' = true ∧ monitor_tbt self' = true) as [He' Hm'].
    { unfold config_of in Hcfg. split; congruence. }
    destruct req as [| |x]; simpl.
    1,2: rewrite Hw in Hwin;
         specialize (IH self' log' vs He' Hm' Hwin Hlen);
         by destruct (serve w rs (self', log')) as [os σ''].
    rewrite He, Hm, Hw in Hwin. simpl in Hwin.
    rewrite append_evict_drop in Hwin by done.
    assert (length (drop (length (vs ++ [x]) - 10) (vs ++ [x])) ≤ 10)%nat
      as Hlen'.
    { rewrite length_drop, length_app. simpl. lia. }
    specialize (IH self' log' _ He' Hm' Hwin Hlen').
    destruct (serve w rs (self', log')) as [os σ'']. simpl in *.
    rewrite IH, drop_last_ten_step.
    by rewrite <- app_assoc.
Qed.

(** C8.  On an enabled and monitoring object whose window holds at most ten
    samples (a new object holds none), whatever sequence of requests follows:
    the window holds the last ten of the samples seen so far, so never more
    than ten; and when eleven samples are recorded into a new window, the
    first of them is gone and the other ten are the window, oldest first. *)
Theorem latency_window_keeps_last_ten (w : nvml) (self : GPUPowerManager)
    (log : list nvml_call) (vs : list float) (rs : list request) :
  enabled self = true → monitor_tbt self = true →
  window self = Some vs → (length vs ≤ 10)%nat →
  let final := (serve w rs (self, log)).2.1 in
  window final
    = Some (drop (length (vs ++ samples rs) - 10) (vs ++ samples rs))
  ∧ (∀ values, window final = Some values → (length values ≤ 10)%nat)
  ∧ (∀ first rest,
       vs = [] → samples rs = first :: rest → length rest = 10%nat →
       window final = Some rest).
Proof.
  intros He Hm Hw Hlen final.
  pose proof (serve_window w rs self log vs He Hm Hw Hlen) as Hfinal.
  fold final in Hfinal. split; [exact Hfinal|]. split.
  - intros values Hvalues. rewrite Hfinal in Hvalues.
    injection Hvalues as <-. rewrite length_drop. lia.
  - intros first rest -> Hrs Hrest. rewrite Hfinal, Hrs. simpl.
    rewrite Hrest. reflexivity.
Qed.

(** The window of an object fresh from the constructor, after any sequence of
    requests on any platform: the last ten samples recorded. *)
Lemma constructed_manager_window w w' en reduction mon thr ids log log' self rs :
  GPUPowerManager.__init__ w en reduction mon thr ids ((), log)
    = (Return self, ((), log')) →
  enabled self = true → monitor_tbt self = true →
  window (serve w' rs (self, log')).2.1
  = Some (drop (length (samples rs) - 10) (samples rs)).
Proof.
  intros Hinit He Hm.
  destruct (init_returns _ _ _ _ _ _ _ _ _ Hinit)
    as [[Hoff _]|[_ (r & Ha & _ & Hempty & _)]]; [congruence|].
  apply (serve_window w' rs self log' []); [done|done| |simpl; lia].
  unfold window. rewrite Ha. simpl. by rewrite Hempty.
Qed.

Lemma latency_window_keeps_last_ten_witness :
  window (serve two_gpus
            (RecordTbt <$> (float_of_int <$> [1; 2; 3; 4; 5; 6; 7; 8; 9; 10; 11]))
            (manager_on_two_gpus false [], [])).2.1
  = Some (float_of_int <$> [2; 3; 4; 5; 6; 7; 8; 9; 10; 11]).
Proof.
  destruct (latency_window_keeps_last_ten two_gpus
              (manager_on_two_gpus false []) [] []
              (RecordTbt <$> (float_of_int <$> [1; 2; 3; 4; 5; 6; 7; 8; 9; 10; 11]))
              eq_refl eq_refl eq_refl (Nat.le_0_l 10)) as (_ & _ & Heleven).
  apply (Heleven (float_of_int 1)); reflexivity.
Defined.

(** C10.  The two phase transitions leave the latency window as it is, and
    [record_tbt] changes it by its append-and-evict step only, rollback or
    not.  So when [record_tbt] takes the object from Decode to Prefill, the
    window afterwards is the appended window, the very samples whose mean
    exceeded the threshold. *)
Theorem only_append_evict_changes_window (w : nvml) (x : float)
    (self : GPUPowerManager) (log : list nvml_call) :
  window (GPUPowerManager.enter_decode_phase w (self, log)).2.1 = window self
  ∧ window (GPUPowerManager.enter_prefill_phase w (self, log)).2.1
    = window self
  ∧ window (GPUPowerManager.record_tbt w x (self, log)).2.1
    = (if enabled self && monitor_tbt self
       then GPUPowerManager.append_evict x <$> window self
       else window self)
  ∧ (phase self = Some true →
     phase (GPUPowerManager.record_tbt w x (self, log)).2.1 = Some false →
     ∃ old,
       window self = Some old
       ∧ window (GPUPowerManager.record_tbt w x (self, log)).2.1
         = Some (GPUPowerManager.append_evict x old)
       ∧ float_gt (GPUPowerManager.avg_tbt w (GPUPowerManager.append_evict x old))
           (tbt_threshold_ms self) = true).
Proof.
  split; [apply (enter_decode_phase_window w (self, log))|].
  split; [apply (enter_prefill_phase_window w (self, log))|].
  split; [apply (record_tbt_window w x (self, log))|].
  intros Hbefore Hafter.
  pose proof (record_tbt_window w x (self, log)) as Hwin. simpl in Hwin.
  destruct (attrs self) as [r|] eqn:Ha; [|by unfold phase in Hbefore; rewrite Ha in Hbefore].
  assert (in_decode_phase r = true) as Hd.
  { unfold phase in Hbefore. rewrite Ha in Hbefore. by injection Hbefore. }
  destruct (enabled self) eqn:He.
  2:{ unfold GPUPowerManager.record_tbt in Hafter. revert Hafter.
      unfold_monad. rewrite He. simpl. congruence. }
  destruct (monitor_tbt self) eqn:Hm.
  2:{ unfold GPUPowerManager.record_tbt in Hafter. revert Hafter.
      unfold_monad. rewrite He, Hm. simpl. congruence. }
  simpl in Hwin. exists (tbt_values r).
  assert (window self = Some (tbt_values r)) as Hw
    by (unfold window; by rewrite Ha).
  split; [exact Hw|]. split; [by rewrite Hwin, Hw|].
  pose proof (record_tbt_enabled w x self r log He Hm Ha) as Hrec.
  cbv zeta in Hrec.
  destruct (float_gt _ _) eqn:Hgt; [reflexivity|].
  rewrite andb_false_r in Hrec. rewrite Hrec in Hafter.
  unfold phase, with_attrs in Hafter. simpl in Hafter.
  rewrite Ha in Hafter. simpl in Hafter. congruence.
Qed.

Lemma only_append_evict_changes_window_witness :
  ∃ old,
    window (manager_on_two_gpus true [float_of_int 150; float_of_int 160])
      = Some old
    ∧ window (GPUPowerManager.record_tbt two_gpus (float_of_int 170)
                (manager_on_two_gpus true [float_of_int 150; float_of_int 160],
                 [])).2.1
      = Some (GPUPowerManager.append_evict (float_of_int 170) old)
    ∧ float_gt
        (GPUPowerManager.avg_tbt two_gpus
           (GPUPowerManager.append_evict (float_of_int 170) old))
        (float_of_int 100) = true.
Proof.
  destruct (only_append_evict_changes_window two_gpus (float_of_int 170)
              (manager_on_two_gpus true [float_of_int 150; float_of_int 160])
              []) as (_ & _ & _ & Hrollback).
  apply Hrollback; reflexivity.
Defined.

(** ** Failures of single devices during a transition *)

Lemma lock_loop_complete w ids self r log :
  attrs self = Some r →
  (∀ d, d ∈ ids → handle_ok w d = true) →
  (∀ d, d ∈ ids → is_Some (target_clocks r !! d)) →
  for_each ids (GPUPowerManager.lock_device w) (self, log)
  = (Return (), (self, log ++ (GetHandleByIndex_call <$> ids))).
Proof.
  intros Ha. revert log. induction ids as [|d ids IH]; intros log Hok Htgt; simpl.
  - unfold ret. by rewrite app_nil_r.
  - unfold bind at 1.
    assert (GPUPowerManager.lock_device w d (self, log)
            = (Return (), (self, log ++ [GetHandleByIndex_call d]))) as ->.
    { unfold GPUPowerManager.lock_device, nvmlDeviceGetHandleByIndex.
      unfold_monad. rewrite (Hok d) by set_solver. rew_fields.
      destruct (Htgt d) as [c ->]; [set_solver|]. reflexivity. }
    rewrite IH by set_solver. by rewrite <- app_assoc.
Qed.

Lemma enter_decode_from_prefill w self r log :
  enabled self = true → attrs self = Some r → in_decode_phase r = false →
  (∀ d, d ∈ device_ids r → handle_ok w d = true) →
  (∀ d, d ∈ device_ids r → is_Some (target_clocks r !! d)) →
  GPUPowerManager.enter_decode_phase w (self, log)
  = (Return (), (with_attrs (set_in_decode_phase true) self,
                 log ++ (GetHandleByIndex_call <$> device_ids r))).
Proof.
  intros He Ha Hd Hok Htgt. unfold GPUPowerManager.enter_decode_phase.
  cbv beta iota zeta delta [bind ret get modify raise attr]. rew_fields.
  rewrite Hd. rew_fields.
  by rewrite (lock_loop_complete w (device_ids r) self r log Ha Hok Htgt).
Qed.

(** C7, as the code has it.  When the handles of the managed devices can be
    obtained, a phase transition completes whatever the locked-clock calls
    do: a reset call that raises is caught inside the loop, the loop goes on
    to the remaining devices, the transition returns normally and the new
    phase is recorded.  (The transition to Decode looks up the target clock
    of every device; the constructor records one for each.) *)
Theorem transition_survives_reset_failures (w : nvml)
    (self : GPUPowerManager) (r : runtime) (log : list nvml_call) :
  enabled self = true → attrs self = Some r →
  (∀ d, d ∈ device_ids r → handle_ok w d = true) →
  (∀ d, d ∈ device_ids r → is_Some (target_clocks r !! d)) →
  (in_decode_phase r = true →
   GPUPowerManager.enter_prefill_phase w (self, log)
   = (Return (), (with_attrs (set_in_decode_phase false) self,
                  log ++ reset_calls (device_ids r))))
  ∧ (in_decode_phase r = false →
     GPUPowerManager.enter_decode_phase w (self, log)
     = (Return (), (with_attrs (set_in_decode_phase true) self,
                    log ++ (GetHandleByIndex_call <$> device_ids r)))).
Proof.
  intros He Ha Hok Htgt. split; intros Hd.
  - by apply enter_prefill_from_decode.
  - by apply enter_decode_from_prefill.
Qed.

Lemma transition_survives_reset_failures_witness :
  GPUPowerManager.enter_prefill_phase gpu0_reset_fails
    (manager_on_two_gpus true [], [])
  = (Return (), (manager_on_two_gpus false [],
                 [GetHandleByIndex_call 0; ResetGpuLockedClocks_call 0;
                  GetHandleByIndex_call 1; ResetGpuLockedClocks_call 1])).
Proof.
  assert (∀ d : Z, d ∈ [0; 1] → is_Some (target_clocks
            {| device_ids := [0; 1];
               original_clocks := <[1 := 1500]> (<[0 := 1500]> ∅);
               target_clocks := <[1 := 1900]> (<[0 := 1900]> ∅);
               in_decode_phase := true;
               tbt_values := [] |} !! d)) as Htgt.
  { intros d Hd. apply list_elem_of_In in Hd.
    destruct Hd as [<-|[<-|[]]]; by eexists. }
  destruct (transition_survives_reset_failures gpu0_reset_fails
              (manager_on_two_gpus true []) _ [] eq_refl eq_refl
              (λ d _, eq_refl) Htgt) as [Hprefill _].
  exact (Hprefill eq_refl).
Defined.

(** C7 fails for the handle look-up: [nvmlDeviceGetHandleByIndex] is called
    before the [try] block.  With device 0 lost, both transitions raise
    [NVMLError] to the caller at the first device, device 1 is never
    visited, and the phase stays what it was. *)
Lemma lost_handle_aborts_transition :
  GPUPowerManager.enter_prefill_phase gpu0_lost
    (manager_on_two_gpus true [], [])
  = (Raise NVMLError,
     (manager_on_two_gpus true [], [GetHandleByIndex_call 0]))
  ∧ GPUPowerManager.enter_decode_phase gpu0_lost
      (manager_on_two_gpus false [], [])
    = (Raise NVMLError,
       (manager_on_two_gpus false [], [GetHandleByIndex_call 0])).
Proof. split; vm_compute; reflexivity. Qed.

(** ** Scenarios B and C *)

(** C4, as the code has it.  With threshold 100 and the object in Decode:
    recording 50, 60, 70 leaves the phase and the log alone (mean 60);
    recording 150 and 160 after them still does (the window means are 82.5
    and 98); the third new sample, 170, is the first breach: the window is
    then all six samples, its mean is 110, and the call resets both devices
    and records Prefill. *)
Theorem scenario_B_then_C :
  serve two_gpus (RecordTbt <$> (float_of_int <$> [50; 60; 70]))
    (manager_on_two_gpus true [], [])
  = ([Return (); Return (); Return ()],
     (manager_on_two_gpus true (float_of_int <$> [50; 60; 70]), []))
  ∧ GPUPowerManager.avg_tbt two_gpus (float_of_int <$> [50; 60; 70]) = float_of_int 60
  ∧ serve two_gpus (RecordTbt <$> (float_of_int <$> [150; 160]))
      (manager_on_two_gpus true (float_of_int <$> [50; 60; 70]), [])
    = ([Return (); Return ()],
       (manager_on_two_gpus true (float_of_int <$> [50; 60; 70; 150; 160]), []))
  ∧ GPUPowerManager.avg_tbt two_gpus (float_of_int <$> [50; 60; 70; 150; 160])
    = float_of_int 98
  ∧ GPUPowerManager.record_tbt two_gpus (float_of_int 170)
      (manager_on_two_gpus true (float_of_int <$> [50; 60; 70; 150; 160]), [])
    = (Return (),
       (manager_on_two_gpus false
          (float_of_int <$> [50; 60; 70; 150; 160; 170]),
        [GetHandleByIndex_call 0; ResetGpuLockedClocks_call 0;
         GetHandleByIndex_call 1; ResetGpuLockedClocks_call 1]))
  ∧ GPUPowerManager.avg_tbt two_gpus (float_of_int <$> [50; 60; 70; 150; 160; 170])
    = float_of_int 110.
Proof. repeat split; vm_compute; reflexivity. Qed.

(** C4 fails in the value of the mean: at the breach the window holds the six
    samples 50, 60, 70, 150, 160, 170, and the mean that the code compares
    with the threshold is 110, not 160. *)
Lemma breach_mean_is_not_160 :
  window (serve two_gpus
            (RecordTbt <$> (float_of_int <$> [50; 60; 70; 150; 160; 170]))
            (manager_on_two_gpus true [], [])).2.1
  = Some (float_of_int <$> [50; 60; 70; 150; 160; 170])
  ∧ GPUPowerManager.avg_tbt two_gpus (float_of_int <$> [50; 60; 70; 150; 160; 170])
    ≠ float_of_int 160.
Proof.
  split; [vm_compute; reflexivity|].
  intros H. vm_compute in H. discriminate H.
Qed.

(** ** Re-initialization of the module-level instance *)

(** The finalizer of an enabled object resets every device and then shuts the
    interface down; a failing shutdown is swallowed. *)
Lemma del_enabled w self r log :
  enabled self = true → attrs self = Some r →
  (∀ d, d ∈ device_ids r → handle_ok w d = true) →
  GPUPowerManager.__del__ w (self, log)
  = (Return (), (self, log ++ reset_calls (device_ids r) ++ [nvmlShutdown_call])).
Proof.
  intros He Ha Hok. unfold GPUPowerManager.__del__.
  cbv beta iota zeta delta [bind ret get]. rew_fields.
  rewrite (reset_clocks_complete w self r log He Ha Hok).
  unfold nvmlShutdown. unfold_monad. rewrite <- app_assoc.
  by destruct (shutdown_ok w).
Qed.

(** The constructor does not look at the state it runs in. *)
Lemma init_state_agnostic {S} w en reduction mon thr ids (s : S) log :
  GPUPowerManager.__init__ w en reduction mon thr ids (s, log)
  = match GPUPowerManager.__init__ w en reduction mon thr ids ((), log) with
    | (o, (_, log')) => (o, (s, log'))
    end.
Proof.
  unfold GPUPowerManager.__init__.
  destruct (en && NVML_AVAILABLE w); simpl; [|reflexivity].
  unfold nvmlInit. unfold_monad.
  destruct (init_ok w); simpl; [|reflexivity].
  destruct (for_each _ _ _) as [[[]|e] [clocks log']]; reflexivity.
Qed.

(** C5, as the code has it.  [initialize_power_manager] itself never calls
    [reset_clocks]: it unbinds the previous instance and relies on the
    finalizer.  When the module held the last reference to an enabled
    previous instance (in Decode or not) whose device handles can be
    obtained, the finalizer issues the reset of every device of that
    instance, then the shutdown, and only then the new instance is
    constructed.  When another reference to the previous instance is still
    alive, re-initialization issues no call for it. *)
Theorem reinitialization_relies_on_finalizer (w : nvml) (en : bool)
    (reduction : Z) (mon : bool) (thr : float) (ids : option (list Z))
    (old : GPUPowerManager) (r : runtime) (log : list nvml_call) :
  enabled old = true → attrs old = Some r →
  (∀ d, d ∈ device_ids r → handle_ok w d = true) →
  initialize_power_manager w true en reduction mon thr ids (Some old, log)
  = match GPUPowerManager.__init__ w en reduction mon thr ids
            ((), log ++ reset_calls (device_ids r) ++ [nvmlShutdown_call]) with
    | (Return self, (_, log')) => (Return self, (Some self, log'))
    | (Raise e, (_, log')) => (Raise e, (None, log'))
    end
  ∧ initialize_power_manager w false en reduction mon thr ids (Some old, log)
    = match GPUPowerManager.__init__ w en reduction mon thr ids ((), log) with
      | (Return self, (_, log')) => (Return self, (Some self, log'))
      | (Raise e, (_, log')) => (Raise e, (None, log'))
      end.
Proof.
  intros He Ha Hok. unfold initialize_power_manager, finalize. split.
  - cbv beta iota zeta delta [bind ret get modify]. simpl.
    rewrite (del_enabled w old r log He Ha Hok).
    rewrite (init_state_agnostic w en reduction mon thr ids None).
    destruct (GPUPowerManager.__init__ _ _ _ _ _ _ _) as [[self|e] [[] log']];
      reflexivity.
  - cbv beta iota zeta delta [bind ret get modify]. simpl.
    rewrite (init_state_agnostic w en reduction mon thr ids None).
    destruct (GPUPowerManager.__init__ _ _ _ _ _ _ _) as [[self|e] [[] log']];
      reflexivity.
Qed.

Lemma reinitialization_relies_on_finalizer_witness :
  initialize_power_manager two_gpus true true 5 true (float_of_int 100) None
    (Some (manager_on_two_gpus true []), [])
  = (Return (manager_on_two_gpus false []),
     (Some (manager_on_two_gpus false []),
      [GetHandleByIndex_call 0; ResetGpuLockedClocks_call 0;
       GetHandleByIndex_call 1; ResetGpuLockedClocks_call 1;
       nvmlShutdown_call; nvmlInit_call;
       GetHandleByIndex_call 0; GetMaxClockInfo_call 0; GetClockInfo_call 0;
       GetHandleByIndex_call 1; GetMaxClockInfo_call 1; GetClockInfo_call 1])).
Proof.
  destruct (reinitialization_relies_on_finalizer two_gpus true 5 true
              (float_of_int 100) None (manager_on_two_gpus true []) _ []
              eq_refl eq_refl (λ d _, eq_refl)) as [Hlast _].
  rewrite Hlast. vm_compute. reflexivity.
Defined.

(** C5 fails when the previous instance is still referenced elsewhere, for
    instance by the caller that received it from the first
    [initialize_power_manager]: the previous instance is enabled and in
    Decode, and re-initialization issues the calls of the new constructor
    only, without a single clock reset. *)
Lemma reinitialization_without_reset :
  initialize_power_manager two_gpus false true 5 true (float_of_int 100) None
    (Some (manager_on_two_gpus true []), [])
  = (Return (manager_on_two_gpus false []),
     (Some (manager_on_two_gpus false []),
      [nvmlInit_call;
       GetHandleByIndex_call 0; GetMaxClockInfo_call 0; GetClockInfo_call 0;
       GetHandleByIndex_call 1; GetMaxClockInfo_call 1; GetClockInfo_call 1])).
Proof. vm_compute. reflexivity. Qed.

(** ** The target clock: binary64 division by 100 *)

Lemma digits2_pos_bounds (p : positive) :
  2 ^ (Zpos (digits2_pos p) - 1) ≤ Zpos p < 2 ^ Zpos (digits2_pos p).
Proof.
  induction p as [p IH|p IH|]; simpl digits2_pos.
  - rewrite Pos2Z.inj_succ, (Pos2Z.inj_xI p).
    replace (Z.succ (Z.pos (digits2_pos p)) - 1) with (Z.succ (Z.pos (digits2_pos p) - 1)) by lia.
    rewrite !Z.pow_succ_r by lia.
    destruct IH as [IH1 IH2]. revert IH1 IH2. generalize (2 ^ (Z.pos (digits2_pos p) - 1)) (2 ^ Z.pos (digits2_pos p)). lia.
  - rewrite Pos2Z.inj_succ, (Pos2Z.inj_xO p).
    replace (Z.succ (Z.pos (digits2_pos p)) - 1) with (Z.succ (Z.pos (digits2_pos p) - 1)) by lia.
    rewrite !Z.pow_succ_r by lia.
    destruct IH as [IH1 IH2]. revert IH1 IH2. generalize (2 ^ (Z.pos (digits2_pos p) - 1)) (2 ^ Z.pos (digits2_pos p)). lia.
  - simpl. lia.
Qed.

Lemma Zdigits2_unique (q n : Z) :
  0 < q → 2 ^ (n - 1) ≤ q < 2 ^ n → Zdigits2 q = n.
Proof.
  intros Hq [Hlo Hhi]. destruct q as [|p|p]; try lia. simpl.
  pose proof (digits2_pos_bounds p) as [Hlo' Hhi'].
  set (d := Zpos (digits2_pos p)) in *.
  destruct (Z.lt_trichotomy d n) as [Hlt|[Heq|Hgt]]; [|done|].
  - assert (2 ^ d ≤ 2 ^ (n - 1)) by (apply Z.pow_le_mono_r; lia). lia.
  - assert (0 ≤ n).
    { destruct (Z.le_gt_cases 0 n); [done|]. rewrite Z.pow_neg_r in Hhi; lia. }
    assert (2 ^ n ≤ 2 ^ (d - 1)) by (apply Z.pow_le_mono_r; lia). lia.
Qed.



Lemma div_between (a b k : Z) : 0 < b → b * k ≤ a < b * (k + 1) → a / b = k.
Proof. intros Hb Hk. symmetry. apply (Z.div_unique a b k (a - b * k)); lia. Qed.

Ltac pow_consts :=
  change (2 ^ 52) with 4503599627370496 in *;
  change (2 ^ (53 - 1)) with 4503599627370496 in *;
  change (2 ^ 53) with 9007199254740992 in *;
  change (2 ^ (54 - 1)) with 9007199254740992 in *;
  change (2 ^ 54) with 18014398509481984 in *.

(** The second half of [binary_round_aux]: a rounded significand of 53 bits
    is kept, and [2^53] is renormalized to [2^52] with the next exponent. *)
Lemma renormalize_rounded (q e : Z) :
  2 ^ 52 ≤ q ≤ 2 ^ 53 → -1074 ≤ e ≤ 970 →
  ∃ mf ef,
    (let '(mrs, e') := shr_fexp 53 1024 q e loc_Exact in
     match shr_m mrs with
     | Z0 => S754_zero false
     | Zpos m =>
         if e' <=? 1024 - 53 then S754_finite false m e'
         else S754_infinity false
     | Zneg _ => S754_nan
     end) = S754_finite false mf ef
    ∧ e ≤ ef ≤ e + 1
    ∧ Zpos mf * 2 ^ (ef - e) = q.
Proof.
  pow_consts. intros Hq He. unfold shr_fexp.
  destruct (decide (q = 9007199254740992)) as [->|Hne].
  - change (Zdigits2 9007199254740992) with 54.
    replace (fexp 53 1024 (54 + e) - e) with 1 by (unfold fexp, emin; lia).
    simpl.
    assert ((e + 1 <=? 1024 - 53) = true) as -> by (apply Z.leb_le; lia).
    eexists _, _. split; [reflexivity|]. split; [lia|].
    replace (e + 1 - e) with 1 by lia. reflexivity.
  - rewrite (Zdigits2_unique q 53) by (pow_consts; lia).
    replace (fexp 53 1024 (53 + e) - e) with 0 by (unfold fexp, emin; lia).
    simpl. destruct q as [|mf|mf]; try lia.
    assert ((e <=? 1024 - 53) = true) as -> by (apply Z.leb_le; lia).
    eexists _, _. split; [reflexivity|]. split; [lia|].
    rewrite Z.sub_diag. simpl. lia.
Qed.

Lemma binary_round_aux_unfold sx mx ex lx :
  binary_round_aux 53 1024 sx mx ex lx
  = (let '(mrs', e') := shr_fexp 53 1024 mx ex lx in
     let '(mrs'', e'') :=
       shr_fexp 53 1024
         (round_nearest_even (shr_m mrs') (loc_of_shr_record mrs')) e'
         loc_Exact in
     match shr_m mrs'' with
     | Z0 => S754_zero sx
     | Zpos m =>
         if e'' <=? 1024 - 53 then S754_finite sx m e'' else S754_infinity sx
     | Zneg _ => S754_nan
     end).
Proof. reflexivity. Qed.

(** Rounding a 53-bit significand: no bit is shifted out. *)
Lemma binary_round_aux_53 (q e : Z) (l : location) :
  2 ^ 52 ≤ q < 2 ^ 53 → -1074 ≤ e ≤ 970 →
  ∃ mf ef, binary_round_aux 53 1024 false q e l = S754_finite false mf ef
    ∧ e ≤ ef ≤ e + 1
    ∧ Zpos mf * 2 ^ (ef - e) = round_nearest_even q l.
Proof.
  intros Hq He. rewrite binary_round_aux_unfold. unfold shr_fexp at 1.
  rewrite (Zdigits2_unique q 53) by lia.
  replace (fexp 53 1024 (53 + e) - e) with 0 by (unfold fexp, emin; lia).
  simpl shr. cbv beta iota zeta.
  assert (loc_of_shr_record (shr_record_of_loc q l) = l) as ->
    by (by destruct l as [|[]]).
  assert (shr_m (shr_record_of_loc q l) = q) as -> by (by destruct l as [|[]]).
  apply renormalize_rounded; [|done].
  unfold round_nearest_even. destruct l as [|[]]; try lia.
  destruct (Z.even q); lia.
Qed.

(** Rounding a 54-bit significand: the last bit is shifted out and decides,
    with the location, whether the rest is rounded up. *)
Lemma binary_round_aux_54 (q e : Z) (l : location) :
  2 ^ 53 ≤ q < 2 ^ 54 → -1074 ≤ e ≤ 969 →
  ∃ mf ef, binary_round_aux 53 1024 false q e l = S754_finite false mf ef
    ∧ e + 1 ≤ ef ≤ e + 2
    ∧ (Zpos mf * 2 ^ (ef - e) = 2 * (q / 2)
       ∨ (Z.odd q = true ∧ Zpos mf * 2 ^ (ef - e) = q + 1)).
Proof.
  intros Hq He. rewrite binary_round_aux_unfold. unfold shr_fexp at 1.
  rewrite (Zdigits2_unique q 54) by lia.
  replace (fexp 53 1024 (54 + e) - e) with 1 by (unfold fexp, emin; lia).
  simpl shr. cbv beta iota zeta.
  set (mrs := shr_1 (shr_record_of_loc q l)).
  assert (shr_m mrs = q / 2
          ∧ (shr_r mrs = false ∨ Z.odd q = true)) as [Hm Hr].
  { unfold mrs. pow_consts. destruct q as [|p|p]; try lia.
    destruct p as [p|p|]; try lia; destruct l as [|[]]; simpl; split; auto;
      symmetry; apply div_between; lia. }
  set (q' := round_nearest_even (shr_m mrs) (loc_of_shr_record mrs)).
  assert (q' = q / 2 ∨ (Z.odd q = true ∧ q' = q / 2 + 1)) as Hq'.
  { unfold q', round_nearest_even. rewrite Hm.
    destruct mrs as [m [] s]; simpl in *.
    - destruct Hr as [|Hr]; [done|]. destruct s; [by right|].
      destruct (Z.even (q / 2)); [by left|by right].
    - destruct s; by left. }
  assert (q = 2 * (q / 2) + (if Z.odd q then 1 else 0)) as Hhalf.
  { rewrite <- Zmod_odd. apply Z.div_mod. lia. }
  clearbody q' mrs. revert Hq' Hhalf. generalize (q / 2). intros h Hq' Hhalf.
  pow_consts.
  destruct (renormalize_rounded q' (e + 1)) as (mf & ef & -> & Hef & Hval).
  { pow_consts. destruct (Z.odd q); destruct Hq' as [->|[? ->]]; lia. }
  { lia. }
  exists mf, ef. split; [reflexivity|]. split; [lia|].
  assert (Zpos mf * 2 ^ (ef - e) = 2 * q') as Hv.
  { replace (ef - e) with (Z.succ (ef - (e + 1))) by lia.
    rewrite Z.pow_succ_r by lia. lia. }
  rewrite Hv. destruct Hq' as [->|[Hodd ->]]; [by left|right].
  split; [done|]. rewrite Hodd in Hhalf. lia.
Qed.

Lemma round_new_location_100 (q r : Z) :
  0 ≤ r < 100 →
  round_nearest_even q (new_location 100 r) = q
  ∨ (50 ≤ r ∧ round_nearest_even q (new_location 100 r) = q + 1).
Proof.
  intros Hr. change (new_location 100 r) with (new_location_even 100 r).
  unfold new_location_even, round_nearest_even.
  destruct (Z.eqb_spec r 0) as [->|Hr0]; [by left|].
  destruct (Z.compare_spec (2 * r) 100).
  - destruct (Z.even q); [by left|right; split; [lia|done]].
  - by left.
  - right. split; [lia|done].
Qed.

Lemma div_scaled (mf D T k V CC : Z) :
  0 < T → 0 < D → mf * T = V → D * T = CC →
  CC * k ≤ V < CC * (k + 1) → mf / D = k.
Proof.
  intros HT HD HV HCC [Hlo Hhi]. apply div_between; [done|]. split.
  - apply (Z.mul_le_mono_pos_r _ _ T); [done|].
    replace (D * k * T) with (CC * k) by (subst CC; ring). by rewrite HV.
  - apply (Z.mul_lt_mono_pos_r T); [done|].
    replace (D * (k + 1) * T) with (CC * (k + 1)) by (subst CC; ring).
    by rewrite HV.
Qed.

(** Dividing a positive integer below [2^53] by 100: the quotient is a finite
    float with a negative exponent whose integer part is the floor of the
    exact quotient. *)
Lemma truediv_100_pos (p : positive) :
  Zpos p < 2 ^ 53 →
  ∃ mf ef,
    float_div (S754_finite false p 0) (S754_finite false 100 0)
      = S754_finite false mf ef
    ∧ ef < 0
    ∧ Zpos mf / 2 ^ (- ef) = Zpos p / 100.
Proof.
  intros Hp. unfold float_div, SFdiv, SFdiv_core_binary.
  pose proof (digits2_pos_bounds p) as [Hlo Hhi].
  change (Zdigits2 (Zpos p)) with (Zpos (digits2_pos p)).
  set (d := Zpos (digits2_pos p)) in *.
  assert (1 ≤ d ≤ 53) as Hd.
  { split; [unfold d; lia|].
    destruct (Z.le_gt_cases d 53) as [|Hgt]; [done|].
    assert (2 ^ 53 ≤ 2 ^ (d - 1)) by (apply Z.pow_le_mono_r; lia). lia. }
  change (Zdigits2 100) with 7.
  replace (Z.min (fexp 53 1024 (d + 0 - (7 + 0))) (0 - 0)) with (d - 60)
    by (unfold fexp, emin; lia).
  replace (0 - 0 - (d - 60)) with (60 - d) by lia.
  destruct (60 - d) as [|s|s] eqn:Hs; try lia.
  rewrite Z.shiftl_mul_pow2 by lia.
  assert (∃ C1, 2 ^ Zpos s = 2 * C1 ∧ 64 ≤ C1
                ∧ 2 ^ 59 ≤ Zpos p * (2 * C1) < 2 ^ 60) as (C1 & HC & HC1 & Hm').
  { exists (2 ^ (Zpos s - 1)).
    assert (2 ^ Zpos s = 2 * 2 ^ (Zpos s - 1)) as HC.
    { rewrite <- Z.pow_succ_r by lia. f_equal. lia. }
    split; [exact HC|]. split.
    - change 64 with (2 ^ 6). apply Z.pow_le_mono_r; lia.
    - rewrite <- HC.
      assert (2 ^ (d - 1) * 2 ^ Zpos s = 2 ^ 59) as Hlow.
      { rewrite <- Z.pow_add_r by lia. f_equal. lia. }
      assert (2 ^ d * 2 ^ Zpos s = 2 ^ 60) as Hhigh.
      { rewrite <- Z.pow_add_r by lia. f_equal. lia. }
      assert (0 < 2 ^ Zpos s) by (apply Z.pow_pos_nonneg; lia).
      rewrite <- Hlow, <- Hhigh. split.
      + apply Z.mul_le_mono_nonneg_r; lia.
      + apply Z.mul_lt_mono_pos_r; lia. }
  rewrite HC.
  pose proof (Z_div_mod (Zpos p * (2 * C1)) 100 eq_refl) as Hdiv.
  change IntDef.Z.div_eucl with Z.div_eucl.
  destruct (Z.div_eucl (Zpos p * (2 * C1)) 100) as [q r].
  destruct Hdiv as [Hqr Hr]. simpl xorb.
  pose proof (Z.div_mod (Zpos p) 100 ltac:(lia)) as Hk.
  pose proof (Z.mod_pos_bound (Zpos p) 100 eq_refl) as Hj.
  revert Hk Hj. generalize (Zpos p / 100) (Zpos p mod 100). intros k j Hk Hj.
  assert (∃ X1 Y1, X1 = C1 * k ∧ 0 ≤ Y1 ≤ 99 * C1
                   ∧ 100 * q + r = 200 * X1 + 2 * Y1) as (X1 & Y1 & HX1 & HY1 & HXY).
  { exists (C1 * k), (C1 * j). split; [done|]. split; [nia|].
    rewrite <- Hqr, Hk. ring. }
  assert (∀ mf ef V,
            d - 60 ≤ ef ≤ d - 60 + 2 →
            Zpos mf * 2 ^ (ef - (d - 60)) = V →
            2 * X1 ≤ V < 2 * X1 + 2 * C1 →
            ef < 0 ∧ Zpos mf / 2 ^ (- ef) = k) as Hfinish.
  { intros mf ef V Hef HV HVr. split; [lia|].
    apply (div_scaled _ _ (2 ^ (ef - (d - 60))) _ V (2 * C1)).
    - apply Z.pow_pos_nonneg; lia.
    - apply Z.pow_pos_nonneg; lia.
    - exact HV.
    - rewrite <- Z.pow_add_r by lia. rewrite <- HC, <- Hs. f_equal. lia.
    - subst X1. lia. }
  pow_consts.
  destruct (Z.lt_ge_cases q 9007199254740992) as [Hq53|Hq54].
  - destruct (binary_round_aux_53 q (d - 60) (new_location 100 r))
      as (mf & ef & -> & Hef & HV); [pow_consts; lia | lia |].
    exists mf, ef. split; [reflexivity|].
    apply (Hfinish mf ef _ ltac:(lia) HV).
    destruct (round_new_location_100 q r Hr) as [->|[Hr50 ->]]; lia.
  - destruct (binary_round_aux_54 q (d - 60) (new_location 100 r))
      as (mf & ef & -> & Hef & HV); [pow_consts; lia | lia |].
    exists mf, ef. split; [reflexivity|].
    assert (q = 2 * (q / 2) + (if Z.odd q then 1 else 0)) as Hhalf.
    { rewrite <- Zmod_odd. apply Z.div_mod. lia. }
    revert HV Hhalf. generalize (q / 2). intros h HV Hhalf.
    destruct HV as [HV|[Hodd HV]].
    + apply (Hfinish mf ef _ ltac:(lia) HV). destruct (Z.odd q); lia.
    + apply (Hfinish mf ef _ ltac:(lia) HV). rewrite Hodd in Hhalf. lia.
Qed.

Lemma truediv_100_zero :
  int_truediv 0 100 = Return (S754_zero false).
Proof. reflexivity. Qed.

Lemma target_clock_floor (m r : Z) :
  0 ≤ r ≤ 100 → 0 ≤ m → m * (100 - r) < 2 ^ 53 →
  target_clock_of m r = Return (m * (100 - r) / 100).
Proof.
  intros Hr Hm Hsmall. unfold target_clock_of.
  assert (0 ≤ m * (100 - r)) as Hnonneg by nia.
  destruct (m * (100 - r)) as [|p|p] eqn:Ha; [reflexivity| |lia].
  unfold int_truediv. simpl int_as_float.
  destruct (truediv_100_pos p Hsmall) as (mf & ef & -> & Hef & Hfloor).
  simpl. rewrite Z.shiftl_div_pow2 by lia. by rewrite Hfloor.
Qed.

(** A clock read through the binding is a C [unsigned int]. *)
Lemma c_uint_range (n : Z) : 0 ≤ c_uint n < 2 ^ 32.
Proof. unfold c_uint. apply Z.mod_pos_bound. reflexivity. Qed.

Lemma c_uint_id (n : Z) : 0 ≤ n < 2 ^ 32 → c_uint n = n.
Proof. unfold c_uint. apply Z.mod_small. Qed.

(** C9.  For every reduction percentage [r] in [0,100] and every maximum
    clock [m] that [nvmlDeviceGetMaxClockInfo] can return (the value of a C
    [unsigned int], whatever the driver wrote there; it is non-negative), the
    expression [int(m * (100 - r) / 100)] of the constructor, a binary64
    division followed by a truncation, returns the floor of the exact
    quotient; this target lies between [0] and [m]; and it is what a
    constructor run with reduction [r] records for every managed device whose
    maximum clock is [m]. *)
Theorem target_clock_is_floor (raw r : Z) :
  0 ≤ r ≤ 100 →
  let m := c_uint raw in
  0 ≤ m
  ∧ target_clock_of m r = Return (m * (100 - r) / 100)
  ∧ 0 ≤ m * (100 - r) / 100 ≤ m
  ∧ ∀ w en mon thr ids log log' self rt d,
      GPUPowerManager.__init__ w en r mon thr ids ((), log)
        = (Return self, ((), log')) →
      attrs self = Some rt → d ∈ device_ids rt →
      max_clock_info w d = Some raw →
      target_clocks rt !! d = Some (m * (100 - r) / 100).
Proof.
  intros Hr m. pose proof (c_uint_range raw) as Hm. fold m in Hm.
  change (2 ^ 32) with 4294967296 in Hm.
  assert (m * (100 - r) < 2 ^ 53) as Hsmall.
  { change (2 ^ 53) with 9007199254740992. nia. }
  pose proof (target_clock_floor m r Hr (proj1 Hm) Hsmall) as Hfloor.
  split; [lia|]. split; [exact Hfloor|]. split.
  - split; [apply Z.div_pos; nia | apply Z.div_le_upper_bound; nia].
  - intros w en mon thr ids log log' self rt d Hinit Hattrs Hd Hmax.
    destruct (init_returns _ _ _ _ _ _ _ _ _ Hinit)
      as [[_ Hnone]|[_ (rt' & Hsome & _ & _ & Htargets)]]; [congruence|].
    assert (rt' = rt) as -> by congruence.
    destruct (Htargets d Hd) as (m' & t & Hmax' & Ht & Hlookup).
    assert (m' = raw) as -> by congruence.
    rewrite Hlookup. fold m in Ht. congruence.
Qed.

Lemma target_clock_is_floor_witness :
  target_clock_of 2000 5 = Return 1900
  ∧ ∃ rt, attrs (manager_on_two_gpus false []) = Some rt
          ∧ target_clocks rt !! 0 = Some 1900.
Proof.
  destruct (target_clock_is_floor 2000 5) as (_ & Hfloor & _ & Hinit);
    [lia|].
  split; [exact Hfloor|].
  eexists. split; [reflexivity|].
  apply (Hinit two_gpus true true (float_of_int 100) None []
           [nvmlInit_call;
            GetHandleByIndex_call 0; GetMaxClockInfo_call 0; GetClockInfo_call 0;
            GetHandleByIndex_call 1; GetMaxClockInfo_call 1; GetClockInfo_call 1]
           (manager_on_two_gpus false []) _ 0).
  - vm_compute. reflexivity.
  - reflexivity.
  - apply elem_of_cons. by left.
  - reflexivity.
Defined.

(** The width of the clock matters.  On a Python [int] beyond what an
    [unsigned int] holds the same expression is no longer the floor: for
    [2^53 + 3] and a reduction of [0] the exact quotient lies half-way
    between two floats and the division rounds it up by one. *)
Lemma target_clock_of_beyond_c_uint :
  target_clock_of 9007199254740995 0 = Return 9007199254740996
  ∧ 9007199254740995 * (100 - 0) / 100 = 9007199254740995
  ∧ c_uint 9007199254740995 = 3.
Proof. repeat split; vm_compute; reflexivity. Qed.


(** * The rollback test of [record_tbt] *)

(** ** Whole numbers as floats *)

Lemma shr_1_even (M : Z) :
  0 < M →
  shr_1 {| shr_m := 2 * M; shr_r := false; shr_s := false |}
  = {| shr_m := M; shr_r := false; shr_s := false |}.
Proof. destruct M; try lia. reflexivity. Qed.

Lemma iter_pos_xI {A} (f : A → A) (p : positive) (x : A) :
  iter_pos f p~1 x = iter_pos f p (iter_pos f p (f x)).
Proof. reflexivity. Qed.

Lemma iter_pos_xO {A} (f : A → A) (p : positive) (x : A) :
  iter_pos f p~0 x = iter_pos f p (iter_pos f p x).
Proof. reflexivity. Qed.

(** Shifting out [k] zero bits loses nothing. *)
Lemma iter_shr_1_exact (k : positive) : ∀ M : Z,
  0 < M →
  iter_pos shr_1 k {| shr_m := M * 2 ^ Zpos k; shr_r := false; shr_s := false |}
  = {| shr_m := M; shr_r := false; shr_s := false |}.
Proof.
  induction k as [k IH|k IH|]; intros M HM.
  - rewrite iter_pos_xI.
    replace (M * 2 ^ Zpos k~1) with (2 * ((M * 2 ^ Zpos k) * 2 ^ Zpos k)).
    + assert (0 < 2 ^ Zpos k) by (apply Z.pow_pos_nonneg; lia).
      rewrite shr_1_even by nia. rewrite IH by nia. by apply IH.
    + rewrite (Pos2Z.inj_xI k).
      replace (2 * Zpos k + 1) with (Zpos k + Zpos k + 1) by lia.
      rewrite !Z.pow_add_r by lia. change (2 ^ 1) with 2. ring.
  - rewrite iter_pos_xO.
    replace (M * 2 ^ Zpos k~0) with ((M * 2 ^ Zpos k) * 2 ^ Zpos k).
    + assert (0 < 2 ^ Zpos k) by (apply Z.pow_pos_nonneg; lia).
      rewrite IH by nia. by apply IH.
    + rewrite (Pos2Z.inj_xO k).
      replace (2 * Zpos k) with (Zpos k + Zpos k) by lia.
      rewrite !Z.pow_add_r by lia. ring.
  - change (2 ^ 1) with 2. replace (M * 2) with (2 * M) by ring.
    change (iter_pos shr_1 1 ?x) with (shr_1 x). by apply shr_1_even.
Qed.


Lemma digits_of_scaled (M : Z) (t : Z) :
  0 ≤ t → 0 < M → 2 ^ 52 ≤ M * 2 ^ t < 2 ^ 53 → Zdigits2 M = 53 - t.
Proof.
  intros Ht HM [Hlo Hhi].
  assert (0 < 2 ^ t) as Hpos by (apply Z.pow_pos_nonneg; lia).
  assert (t < 53) as Ht53.
  { destruct (Z.lt_ge_cases t 53) as [|Hge]; [done|].
    assert (2 ^ 53 ≤ 2 ^ t) by (apply Z.pow_le_mono_r; lia). nia. }
  apply Zdigits2_unique; [done|].
  assert (2 ^ 53 = 2 ^ (53 - t) * 2 ^ t) as H53.
  { rewrite <- Z.pow_add_r by lia. f_equal. lia. }
  assert (2 ^ 52 = 2 ^ (53 - t - 1) * 2 ^ t) as H52.
  { rewrite <- Z.pow_add_r by lia. f_equal. lia. }
  split.
  - apply (Z.mul_le_mono_pos_r _ _ (2 ^ t)); [done|]. by rewrite <- H52.
  - apply (Z.mul_lt_mono_pos_r (2 ^ t)); [done|]. by rewrite <- H53.
Qed.

Lemma digits_of_multiple (m : Z) (t : Z) :
  0 ≤ t → 2 ^ 52 ≤ m < 2 ^ 53 → Zdigits2 (m * 2 ^ t) = 53 + t.
Proof.
  intros Ht [Hlo Hhi].
  assert (0 < 2 ^ t) as Hpos by (apply Z.pow_pos_nonneg; lia).
  assert (0 < m) by (pow_consts; lia).
  apply Zdigits2_unique; [nia|].
  replace (53 + t - 1) with (52 + t) by lia.
  rewrite !Z.pow_add_r by lia. split.
  - apply Z.mul_le_mono_nonneg_r; lia.
  - apply Z.mul_lt_mono_pos_r; lia.
Qed.

Lemma shr_fexp_exact (M E : Z) (m : positive) (e : Z) :
  canonical53 m e → E ≤ e → M = Zpos m * 2 ^ (e - E) →
  shr_fexp 53 1024 M E loc_Exact
  = ({| shr_m := Zpos m; shr_r := false; shr_s := false |}, e).
Proof.
  intros [Hm He] HE ->. unfold shr_fexp.
  rewrite (digits_of_multiple (Zpos m) (e - E)) by (done || lia).
  replace (fexp 53 1024 (53 + (e - E) + E) - E) with (e - E)
    by (unfold fexp, emin; lia).
  unfold shr_record_of_loc, shr.
  destruct (e - E) as [|k|k] eqn:Hk; [|  |lia].
  - change (2 ^ 0) with 1. rewrite Z.mul_1_r. f_equal. lia.
  - rewrite iter_shr_1_exact by lia. f_equal. lia.
Qed.

Lemma binary_round_aux_exact sx (M E : Z) (m : positive) (e : Z) :
  canonical53 m e → E ≤ e → M = Zpos m * 2 ^ (e - E) →
  binary_round_aux 53 1024 sx M E loc_Exact = S754_finite sx m e.
Proof.
  intros Hc HE HM. rewrite binary_round_aux_unfold.
  rewrite (shr_fexp_exact M E m e Hc HE HM). cbv beta iota zeta.
  simpl shr_m. simpl loc_of_shr_record. simpl round_nearest_even.
  rewrite (shr_fexp_exact (Zpos m) e m e Hc); [|lia|].
  2:{ rewrite Z.sub_diag. change (2 ^ 0) with 1. lia. }
  cbv beta iota zeta. simpl shr_m.
  destruct Hc as [_ He].
  assert ((e <=? 1024 - 53) = true) as -> by (apply Z.leb_le; lia).
  reflexivity.
Qed.

Lemma shl_align_value (m : positive) (e e' : Z) :
  e' ≤ e →
  Zpos (shl_align m e e').1 = Zpos m * 2 ^ (e - e')
  ∧ (shl_align m e e').2 = e'.
Proof.
  intros He. unfold shl_align.
  destruct (e' - e) as [|d|d] eqn:Hd; try lia; simpl.
  - replace (e - e') with 0 by lia. change (2 ^ 0) with 1. lia.
  - replace (e - e') with (Zpos d) by lia.
    change (Pos.iter xO m d) with (Zpower.shift_pos d m).
    rewrite Zpower.shift_pos_correct.
    change (Zpower_pos 2 d) with (2 ^ Zpos d). lia.
Qed.

(** Rounding a number that a float holds exactly gives that float. *)
Lemma binary_round_canonical sx (M : positive) (E : Z) (m : positive) (e : Z) :
  canonical53 m e →
  (E ≤ e ∧ Zpos M = Zpos m * 2 ^ (e - E))
  ∨ (e ≤ E ∧ Zpos m = Zpos M * 2 ^ (E - e)) →
  binary_round 53 1024 sx M E = S754_finite sx m e.
Proof.
  intros Hc Hval. unfold binary_round.
  change (Zpos (digits2_pos M)) with (Zdigits2 (Zpos M)).
  assert (Zdigits2 (Zpos M) + E = 53 + e) as Hd.
  { destruct Hc as [Hm He]. destruct Hval as [[HE ->]|[HE HmM]].
    - rewrite digits_of_multiple by (done || lia). lia.
    - rewrite (digits_of_scaled (Zpos M) (E - e)); [lia|lia|lia|].
      by rewrite <- HmM. }
  rewrite Hd.
  replace (fexp 53 1024 (53 + e)) with e
    by (destruct Hc as [_ He]; unfold fexp, emin; lia).
  destruct Hval as [[HE HM]|[HE HmM]].
  - assert (shl_align M E e = (M, E)) as ->.
    { unfold shl_align. destruct (e - E) eqn:?; try lia; reflexivity. }
    by apply binary_round_aux_exact.
  - destruct (shl_align_value M E e HE) as [Hv He'].
    destruct (shl_align M E e) as [mz ez]. simpl in Hv, He'. subst ez.
    apply binary_round_aux_exact; [done|lia|].
    rewrite Z.sub_diag. change (2 ^ 0) with 1. lia.
Qed.


Lemma holds_int_exists (z : Z) :
  z ≠ 0 → Z.abs z < 2 ^ 53 → ∃ m e, holds_int z m e.
Proof.
  intros Hz Hsmall.
  destruct (Z.abs z) as [|p|p] eqn:Hp; try lia.
  pose proof (digits2_pos_bounds p) as [Hlo Hhi].
  set (d := Zpos (digits2_pos p)) in *.
  assert (1 ≤ d ≤ 53) as Hd.
  { split; [unfold d; lia|].
    destruct (Z.le_gt_cases d 53) as [|Hgt]; [done|].
    assert (2 ^ 53 ≤ 2 ^ (d - 1)) by (apply Z.pow_le_mono_r; lia). lia. }
  assert (0 < 2 ^ (53 - d)) as Hpos by (apply Z.pow_pos_nonneg; lia).
  assert (2 ^ 52 = 2 ^ (d - 1) * 2 ^ (53 - d)) as H52.
  { rewrite <- Z.pow_add_r by lia. f_equal. lia. }
  assert (2 ^ 53 = 2 ^ d * 2 ^ (53 - d)) as H53.
  { rewrite <- Z.pow_add_r by lia. f_equal. lia. }
  exists (Z.to_pos (Zpos p * 2 ^ (53 - d))), (d - 53).
  unfold holds_int, canonical53. rewrite Z2Pos.id by nia.
  replace (- (d - 53)) with (53 - d) by lia.
  rewrite H52, H53. repeat split; try lia.
  - apply Z.mul_le_mono_nonneg_r; lia.
  - apply Z.mul_lt_mono_pos_r; lia.
Qed.

Lemma float_of_int_holds (z : Z) (m : positive) (e : Z) :
  z ≠ 0 → holds_int z m e →
  float_of_int z = S754_finite (z <? 0) m e.
Proof.
  intros Hz (Hc & He & Hm). unfold float_of_int, binary_normalize.
  destruct z as [|p|p]; [done| |]; simpl Z.abs in Hm.
  - apply binary_round_canonical; [done|]. right.
    split; [lia|]. rewrite Hm. by replace (0 - e) with (- e) by lia.
  - apply binary_round_canonical; [done|]. right.
    split; [lia|]. rewrite Hm. by replace (0 - e) with (- e) by lia.
Qed.

Lemma cond_Zopp_holds (z : Z) (m : positive) (e ez : Z) :
  holds_int z m e → ez ≤ e →
  cond_Zopp (z <? 0) (Zpos (shl_align m e ez).1) = z * 2 ^ (- ez).
Proof.
  intros (Hc & He & Hm) Hez.
  destruct (shl_align_value m e ez Hez) as [-> _]. rewrite Hm.
  rewrite <- Z.mul_assoc, <- Z.pow_add_r by lia.
  replace (- e + (e - ez)) with (- ez) by lia.
  destruct (Z.ltb_spec z 0); simpl; lia.
Qed.

(** Rounding [z * 2^(-ez)] at the exponent [ez] gives the float of [z]. *)
Lemma binary_normalize_int (z ez : Z) :
  Z.abs z < 2 ^ 53 → -52 ≤ ez ≤ 0 →
  binary_normalize 53 1024 (z * 2 ^ (- ez)) ez false = float_of_int z.
Proof.
  intros Hsmall Hez.
  assert (0 < 2 ^ (- ez)) as Hpos by (apply Z.pow_pos_nonneg; lia).
  destruct (decide (z = 0)) as [->|Hz]; [reflexivity|].
  destruct (holds_int_exists z Hz Hsmall) as (m & e & Hholds).
  rewrite (float_of_int_holds z m e Hz Hholds).
  destruct Hholds as (Hc & He & Hm).
  assert (∀ sx (M : positive),
            Zpos M = Z.abs z * 2 ^ (- ez) →
            binary_round 53 1024 sx M ez = S754_finite sx m e) as Hround.
  { intros sx M HM. apply binary_round_canonical; [done|].
    destruct (Z.le_ge_cases ez e) as [Hle|Hge].
    - left. split; [done|]. rewrite HM, Hm.
      rewrite <- Z.mul_assoc, <- Z.pow_add_r by lia. do 2 f_equal. lia.
    - right. split; [lia|]. rewrite HM, Hm.
      rewrite <- Z.mul_assoc, <- Z.pow_add_r by lia. do 2 f_equal. lia. }
  unfold binary_normalize.
  destruct (z * 2 ^ (- ez)) as [|M|M] eqn:HM.
  - nia.
  - assert (0 < z) by nia.
    assert ((z <? 0) = false) as -> by (apply Z.ltb_ge; lia).
    apply Hround. rewrite Z.abs_eq by lia. lia.
  - assert (z < 0) by nia.
    assert ((z <? 0) = true) as -> by (apply Z.ltb_lt; lia).
    apply Hround. rewrite Z.abs_neq by lia. lia.
Qed.

(** Sums and differences of whole numbers are exact as long as they stay
    below [2^53]. *)
Lemma float_add_int (a b : Z) :
  Z.abs a < 2 ^ 53 → Z.abs b < 2 ^ 53 → Z.abs (a + b) < 2 ^ 53 →
  float_add (float_of_int a) (float_of_int b) = float_of_int (a + b).
Proof.
  intros Ha Hb Hab.
  destruct (decide (a = 0)) as [->|Ha0].
  { destruct (decide (b = 0)) as [->|Hb0]; [reflexivity|].
    destruct (holds_int_exists b Hb0 Hb) as (m & e & Hh).
    rewrite Z.add_0_l, (float_of_int_holds b m e Hb0 Hh). reflexivity. }
  destruct (holds_int_exists a Ha0 Ha) as (ma & ea & Hha).
  rewrite (float_of_int_holds a ma ea Ha0 Hha).
  destruct (decide (b = 0)) as [->|Hb0].
  { rewrite Z.add_0_r, (float_of_int_holds a ma ea Ha0 Hha). reflexivity. }
  destruct (holds_int_exists b Hb0 Hb) as (mb & eb & Hhb).
  rewrite (float_of_int_holds b mb eb Hb0 Hhb).
  unfold float_add, SFadd. cbv zeta.
  change IntDef.Z.min with Z.min.
  rewrite (cond_Zopp_holds a ma ea (Z.min ea eb) Hha) by lia.
  rewrite (cond_Zopp_holds b mb eb (Z.min ea eb) Hhb) by lia.
  rewrite <- Z.mul_add_distr_r.
  apply binary_normalize_int; [done|].
  destruct Hha as (_ & ? & _), Hhb as (_ & ? & _). lia.
Qed.

Lemma float_sub_int (a b : Z) :
  Z.abs a < 2 ^ 53 → Z.abs b < 2 ^ 53 → Z.abs (a - b) < 2 ^ 53 →
  float_sub (float_of_int a) (float_of_int b) = float_of_int (a - b).
Proof.
  intros Ha Hb Hab.
  destruct (decide (b = 0)) as [->|Hb0].
  { rewrite Z.sub_0_r. destruct (decide (a = 0)) as [->|Ha0]; [reflexivity|].
    destruct (holds_int_exists a Ha0 Ha) as (m & e & Hh).
    rewrite (float_of_int_holds a m e Ha0 Hh). reflexivity. }
  destruct (holds_int_exists b Hb0 Hb) as (mb & eb & Hhb).
  rewrite (float_of_int_holds b mb eb Hb0 Hhb).
  destruct (decide (a = 0)) as [->|Ha0].
  { replace (0 - b) with (- b) by lia.
    assert (holds_int (- b) mb eb) as Hh'.
    { destruct Hhb as (? & ? & ?). unfold holds_int.
      rewrite Z.abs_opp. done. }
    rewrite (float_of_int_holds (- b) mb eb ltac:(lia) Hh').
    simpl. f_equal.
    destruct (Z.ltb_spec b 0), (Z.ltb_spec (- b) 0); simpl; try done; lia. }
  destruct (holds_int_exists a Ha0 Ha) as (ma & ea & Hha).
  rewrite (float_of_int_holds a ma ea Ha0 Hha).
  unfold float_sub, SFsub. cbv zeta.
  change IntDef.Z.min with Z.min.
  rewrite (cond_Zopp_holds a ma ea (Z.min ea eb) Hha) by lia.
  rewrite (cond_Zopp_holds b mb eb (Z.min ea eb) Hhb) by lia.
  rewrite <- Z.mul_sub_distr_r.
  apply binary_normalize_int; [done|].
  destruct Hha as (_ & ? & _), Hhb as (_ & ? & _). lia.
Qed.


Lemma total_nonneg ns : Forall (λ n, 0 ≤ n) ns → 0 ≤ total ns.
Proof. induction 1; simpl; lia. Qed.

Lemma fold_float_add_int ns : ∀ h,
  0 ≤ h → Forall (λ n, 0 ≤ n) ns → h + total ns < 2 ^ 53 →
  fold_left float_add (float_of_int <$> ns) (float_of_int h)
  = float_of_int (h + total ns).
Proof.
  induction ns as [|n ns IH]; intros h Hh Hns Hsmall; simpl.
  - by rewrite Z.add_0_r.
  - apply Forall_cons in Hns as [Hn Hns].
    pose proof (total_nonneg ns Hns) as Htot. simpl in Hsmall.
    rewrite float_add_int by lia.
    rewrite IH by (done || lia). f_equal. lia.
Qed.

Lemma neumaier_step_int (h x : Z) :
  0 ≤ h → 0 ≤ x → h + x < 2 ^ 53 →
  neumaier_step (float_of_int h, S754_zero false) (float_of_int x)
  = (float_of_int (h + x), S754_zero false).
Proof.
  intros Hh Hx Hsmall. unfold neumaier_step. simpl fst. simpl snd.
  rewrite float_add_int by lia. f_equal.
  rewrite !float_sub_int by lia.
  replace (h - (h + x)) with (- x) by lia.
  replace (x - (h + x)) with (- h) by lia.
  rewrite !float_add_int by lia.
  replace (- x + x) with 0 by lia. replace (- h + h) with 0 by lia.
  by destruct (float_ge _ _).
Qed.

Lemma fold_neumaier_int ns : ∀ h,
  0 ≤ h → Forall (λ n, 0 ≤ n) ns → h + total ns < 2 ^ 53 →
  fold_left neumaier_step (float_of_int <$> ns)
    (float_of_int h, S754_zero false)
  = (float_of_int (h + total ns), S754_zero false).
Proof.
  induction ns as [|n ns IH]; intros h Hh Hns Hsmall; simpl.
  - by rewrite Z.add_0_r.
  - apply Forall_cons in Hns as [Hn Hns].
    pose proof (total_nonneg ns Hns) as Htot. simpl in Hsmall.
    rewrite neumaier_step_int by lia.
    rewrite IH by (done || lia). do 2 f_equal. lia.
Qed.

(** Either summation adds whole numbers exactly. *)
Lemma float_sum_int compensated ns :
  Forall (λ n, 0 ≤ n) ns → total ns < 2 ^ 53 →
  float_sum compensated (float_of_int <$> ns) = float_of_int (total ns).
Proof.
  intros Hns Hsmall. destruct compensated; unfold float_sum.
  - destruct ns as [|n ns]; [reflexivity|].
    apply Forall_cons in Hns as [Hn Hns].
    pose proof (total_nonneg ns Hns) as Htot. simpl in Hsmall.
    rewrite fmap_cons.
    cbv beta iota zeta delta [float_sum_compensated].
    change (float_add (S754_zero false) (float_of_int n))
      with (float_add (float_of_int 0) (float_of_int n)).
    rewrite float_add_int by lia. rewrite Z.add_0_l.
    rewrite fold_neumaier_int by (done || lia). reflexivity.
  - unfold float_sum_plain. change (S754_zero false) with (float_of_int 0).
    rewrite fold_float_add_int by (done || lia). reflexivity.
Qed.

(** ** The mean of whole numbers against a whole threshold *)

(** The tail of [binary_round_aux] on a rounded significand. *)
Lemma renormalize_canonical (q e : Z) :
  2 ^ 52 ≤ q ≤ 2 ^ 53 → -1074 ≤ e ≤ 970 →
  ∃ mf ef,
    (let '(mrs, e') := shr_fexp 53 1024 q e loc_Exact in
     match shr_m mrs with
     | Z0 => S754_zero false
     | Zpos m =>
         if e' <=? 1024 - 53 then S754_finite false m e'
         else S754_infinity false
     | Zneg _ => S754_nan
     end) = S754_finite false mf ef
    ∧ canonical53 mf ef
    ∧ e ≤ ef
    ∧ Zpos mf * 2 ^ (ef - e) = q.
Proof.
  intros Hq He.
  destruct (renormalize_rounded q e Hq He) as (mf & ef & Heq & Hef & Hval).
  exists mf, ef. split; [exact Heq|]. split; [|split; [lia|exact Hval]].
  revert Heq. pow_consts. unfold shr_fexp.
  destruct (decide (q = 9007199254740992)) as [->|Hne].
  - change (Zdigits2 9007199254740992) with 54.
    replace (fexp 53 1024 (54 + e) - e) with 1 by (unfold fexp, emin; lia).
    simpl.
    assert ((e + 1 <=? 1024 - 53) = true) as -> by (apply Z.leb_le; lia).
    intros [= <- <-]. unfold canonical53. pow_consts. lia.
  - rewrite (Zdigits2_unique q 53) by (pow_consts; lia).
    replace (fexp 53 1024 (53 + e) - e) with 0 by (unfold fexp, emin; lia).
    simpl. destruct q as [|m|m]; try lia.
    assert ((e <=? 1024 - 53) = true) as -> by (apply Z.leb_le; lia).
    intros [= <- <-]. unfold canonical53. pow_consts. lia.
Qed.

(** Rounding a quotient of 53 bits: it is kept or goes up by one, and goes
    up only when the division left a remainder. *)
Lemma round_quotient_53 (q e : Z) (l : location) :
  2 ^ 52 ≤ q < 2 ^ 53 → -1074 ≤ e ≤ 970 →
  ∃ mf ef V,
    binary_round_aux 53 1024 false q e l = S754_finite false mf ef
    ∧ canonical53 mf ef ∧ e ≤ ef ∧ Zpos mf * 2 ^ (ef - e) = V
    ∧ q ≤ V ≤ q + 1
    ∧ (V = q + 1 → l ≠ loc_Exact).
Proof.
  intros Hq He. rewrite binary_round_aux_unfold. unfold shr_fexp at 1.
  rewrite (Zdigits2_unique q 53) by lia.
  replace (fexp 53 1024 (53 + e) - e) with 0 by (unfold fexp, emin; lia).
  simpl shr. cbv beta iota zeta.
  assert (loc_of_shr_record (shr_record_of_loc q l) = l) as ->
    by (by destruct l as [|[]]).
  assert (shr_m (shr_record_of_loc q l) = q) as -> by (by destruct l as [|[]]).
  assert (q ≤ round_nearest_even q l ≤ q + 1
          ∧ (round_nearest_even q l = q + 1 → l ≠ loc_Exact)) as [Hr Hup].
  { unfold round_nearest_even. destruct l as [|[]]; try (split; [lia|]);
      try (intros; discriminate); try lia.
    destruct (Z.even q); split; try lia; intros; discriminate. }
  destruct (renormalize_canonical (round_nearest_even q l) e)
    as (mf & ef & -> & Hc & Hef & Hval); [lia|lia|].
  by exists mf, ef, (round_nearest_even q l).
Qed.

(** Rounding a quotient of 54 bits: the last bit is shifted out; the result
    is even, within one of the quotient, and below it only when the quotient
    is odd and the division left no remainder. *)
Lemma round_quotient_54 (q e : Z) (l : location) :
  2 ^ 53 ≤ q < 2 ^ 54 → -1074 ≤ e ≤ 969 →
  ∃ mf ef V v,
    binary_round_aux 53 1024 false q e l = S754_finite false mf ef
    ∧ canonical53 mf ef ∧ e ≤ ef ∧ Zpos mf * 2 ^ (ef - e) = V
    ∧ V = 2 * v
    ∧ q - 1 ≤ V ≤ q + 1
    ∧ (V = q - 1 → l = loc_Exact).
Proof.
  intros Hq He. rewrite binary_round_aux_unfold. unfold shr_fexp at 1.
  rewrite (Zdigits2_unique q 54) by lia.
  replace (fexp 53 1024 (54 + e) - e) with 1 by (unfold fexp, emin; lia).
  simpl shr. cbv beta iota zeta.
  set (mrs := shr_1 (shr_record_of_loc q l)).
  assert (q = 2 * (q / 2) + (if Z.odd q then 1 else 0)) as Hhalf.
  { rewrite <- Zmod_odd. apply Z.div_mod. lia. }
  assert (shr_m mrs = q / 2
          ∧ shr_r mrs = Z.odd q
          ∧ (l ≠ loc_Exact → shr_s mrs = true)) as (Hm & Hr & Hs).
  { unfold mrs. pow_consts. destruct q as [|p|p]; try lia.
    destruct p as [p|p|]; try lia; destruct l as [|[]]; simpl;
      (split; [symmetry; apply div_between; lia|]); split; done. }
  set (q' := round_nearest_even (shr_m mrs) (loc_of_shr_record mrs)).
  assert ((q' = q / 2 ∨ (Z.odd q = true ∧ q' = q / 2 + 1))
          ∧ (Z.odd q = true → l ≠ loc_Exact → q' = q / 2 + 1))
    as [Hq' Hup].
  { unfold q', round_nearest_even. rewrite Hm.
    destruct mrs as [m [] s]; simpl in *.
    - rewrite <- Hr. destruct s.
      + split; [by right|done].
      + split.
        * destruct (Z.even (q / 2)); [by left|by right].
        * intros _ Hl. by specialize (Hs Hl).
    - rewrite <- Hr. split; [|done]. destruct s; by left. }
  clearbody q' mrs. revert Hq' Hup Hhalf. generalize (q / 2).
  intros h Hq' Hup Hhalf. pow_consts.
  destruct (renormalize_canonical q' (e + 1))
    as (mf & ef & -> & Hc & Hef & Hval).
  { pow_consts. destruct (Z.odd q); destruct Hq' as [->|[? ->]]; lia. }
  { lia. }
  exists mf, ef, (2 * q'), q'. split; [reflexivity|]. split; [exact Hc|].
  split; [lia|]. split.
  { replace (ef - e) with (Z.succ (ef - (e + 1))) by lia.
    rewrite Z.pow_succ_r by lia. lia. }
  split; [reflexivity|]. split.
  - destruct (Z.odd q); destruct Hq' as [->|[? ->]]; lia.
  - intros HV. destruct l as [|c]; [reflexivity|].
    destruct (Z.odd q) eqn:Hodd.
    + rewrite Hup in HV by done. lia.
    + destruct Hq' as [->|[? ->]]; [lia|done].
Qed.

Lemma new_location_exact (B r : Z) :
  0 ≤ r → new_location B r = loc_Exact → r = 0.
Proof.
  intros Hr. unfold new_location, new_location_even, new_location_odd.
  change IntDef.Z.even with Z.even.
  destruct (Z.even B); destruct (Z.eqb_spec r 0); done.
Qed.

(** The order of two positive floats with 53-bit significands is the order
    of the numbers they hold. *)
Lemma float_lt_canonical (m1 m2 : positive) (e1 e2 c : Z) :
  canonical53 m1 e1 → canonical53 m2 e2 → c ≤ e1 → c ≤ e2 →
  SFltb (S754_finite false m1 e1) (S754_finite false m2 e2) = true
  ↔ Zpos m1 * 2 ^ (e1 - c) < Zpos m2 * 2 ^ (e2 - c).
Proof.
  intros [Hm1 _] [Hm2 _] Hc1 Hc2. unfold SFltb, SFcompare.
  change (PosDef.Pos.compare_cont Eq m1 m2) with (Zpos m1 ?= Zpos m2).
  assert (0 < 2 ^ (e1 - c)) as Hp1 by (apply Z.pow_pos_nonneg; lia).
  assert (0 < 2 ^ (e2 - c)) as Hp2 by (apply Z.pow_pos_nonneg; lia).
  pow_consts.
  destruct (Z.compare_spec e1 e2) as [->|Hlt|Hgt].
  - destruct (Z.compare_spec (Zpos m1) (Zpos m2)) as [Heq|Hlt|Hgt];
      split; try done; try nia.
  - assert (2 ^ (e2 - c) = 2 ^ (e2 - e1) * 2 ^ (e1 - c)) as ->.
    { rewrite <- Z.pow_add_r by lia. f_equal. lia. }
    assert (2 ≤ 2 ^ (e2 - e1)) as HK.
    { change 2 with (2 ^ 1) at 1. apply Z.pow_le_mono_r; lia. }
    split; [intros _|done].
    revert Hp1 HK. generalize (2 ^ (e1 - c)) (2 ^ (e2 - e1)). intros P K HP HK.
    assert (Zpos m1 * P < 9007199254740992 * P)
      by (apply Z.mul_lt_mono_pos_r; lia).
    assert (9007199254740992 ≤ Zpos m2 * K) by nia.
    assert (9007199254740992 * P ≤ Zpos m2 * K * P)
      by (apply Z.mul_le_mono_nonneg_r; lia).
    lia.
  - assert (2 ^ (e1 - c) = 2 ^ (e1 - e2) * 2 ^ (e2 - c)) as ->.
    { rewrite <- Z.pow_add_r by lia. f_equal. lia. }
    assert (2 ≤ 2 ^ (e1 - e2)) as HK.
    { change 2 with (2 ^ 1) at 1. apply Z.pow_le_mono_r; lia. }
    split; [done|].
    revert Hp2 HK. generalize (2 ^ (e2 - c)) (2 ^ (e1 - e2)). intros P K HP HK.
    assert (Zpos m2 * P < 9007199254740992 * P)
      by (apply Z.mul_lt_mono_pos_r; lia).
    assert (9007199254740992 ≤ Zpos m1 * K) by nia.
    assert (9007199254740992 * P ≤ Zpos m1 * K * P)
      by (apply Z.mul_le_mono_nonneg_r; lia).
    lia.
Qed.

(** The arithmetic behind the comparison.  [q] and [r] are quotient and
    remainder of the scaled sum by the scaled count [B], [T'] is the scaled
    threshold, [V] the rounded quotient, and [D = s - n * T] in units of
    [G > B]. *)
Lemma quotient_above_threshold_53 (q r B G D T' V : Z) :
  0 ≤ r < B → B < G → q * B + r - T' * B = D * G →
  q ≤ V ≤ q + 1 → (V = q + 1 → r ≠ 0) →
  T' < V ↔ 0 < D.
Proof.
  intros Hr HG Heq HV Hup. split.
  - intros HT. destruct (Z.lt_ge_cases 0 D) as [|HD]; [done|].
    assert (D * G ≤ 0) by nia.
    assert (q ≤ T').
    { destruct (Z.le_gt_cases q T') as [|Hgt]; [done|].
      assert (1 * B ≤ (q - T') * B) by (apply Z.mul_le_mono_nonneg_r; lia).
      lia. }
    assert (T' = q) as -> by lia. assert (V = q + 1) as HVq by lia.
    specialize (Hup HVq). lia.
  - intros HD.
    assert (1 * G ≤ D * G) by (apply Z.mul_le_mono_nonneg_r; lia).
    assert (T' < q).
    { destruct (Z.lt_ge_cases T' q) as [|Hge]; [done|].
      assert ((q - T') * B ≤ 0) by nia. lia. }
    lia.
Qed.

Lemma quotient_above_threshold_54 (q r B G D T' V t v : Z) :
  0 ≤ r < B → B < G → q * B + r - T' * B = D * G →
  T' = 2 * t → V = 2 * v →
  q - 1 ≤ V ≤ q + 1 → (V = q - 1 → r = 0) →
  T' < V ↔ 0 < D.
Proof.
  intros Hr HG Heq HT' HV' HV Hdown. split.
  - intros HT. destruct (Z.lt_ge_cases 0 D) as [|HD]; [done|].
    assert (D * G ≤ 0) by nia.
    assert (q ≤ T').
    { destruct (Z.le_gt_cases q T') as [|Hgt]; [done|].
      assert (1 * B ≤ (q - T') * B) by (apply Z.mul_le_mono_nonneg_r; lia).
      lia. }
    lia.
  - intros HD.
    assert (1 * G ≤ D * G) by (apply Z.mul_le_mono_nonneg_r; lia).
    assert (T' < q).
    { destruct (Z.lt_ge_cases T' q) as [|Hge]; [done|].
      assert ((q - T') * B ≤ 0) by nia. lia. }
    destruct (decide (V = T')) as [HVT|]; [|lia].
    assert (V = q - 1) as HVq by lia. specialize (Hdown HVq).
    assert (q - T' = 1) as Hone by lia.
    replace (q * B + r - T' * B) with ((q - T') * B + r) in Heq by ring.
    rewrite Hone in Heq. lia.
Qed.

Lemma SFdiv_core_canonical (m1 m2 : positive) (e1 e2 : Z) :
  canonical53 m1 e1 → canonical53 m2 e2 → -52 ≤ e1 ≤ 0 → -52 ≤ e2 ≤ 0 →
  SFdiv_core_binary 53 1024 (Zpos m1) e1 (Zpos m2) e2
  = (let '(q, r) := Z.div_eucl (Zpos m1 * 2 ^ 53) (Zpos m2) in
     (q, e1 - e2 - 53, new_location (Zpos m2) r)).
Proof.
  intros [Hm1 _] [Hm2 _] He1 He2. unfold SFdiv_core_binary.
  rewrite (Zdigits2_unique (Zpos m1) 53) by (done || lia).
  rewrite (Zdigits2_unique (Zpos m2) 53) by (done || lia).
  change IntDef.Z.min with Z.min. change IntDef.Z.shiftl with Z.shiftl.
  change IntDef.Z.div_eucl with Z.div_eucl.
  replace (Z.min (fexp 53 1024 (53 + e1 - (53 + e2))) (e1 - e2))
    with (e1 - e2 - 53) by (unfold fexp, emin; lia).
  replace (e1 - e2 - (e1 - e2 - 53)) with 53 by lia.
  cbv beta iota zeta. rewrite Z.shiftl_mul_pow2 by lia. reflexivity.
Qed.

(** [sum / len > threshold] on whole numbers: the binary64 quotient is above
    the threshold exactly when the sum is above [len * threshold]. *)
Lemma float_gt_quotient_int (s n T : Z) :
  0 ≤ s < 2 ^ 53 → 0 < n < 2 ^ 53 → 0 ≤ T < 2 ^ 53 →
  float_gt (float_div (float_of_int s) (float_of_int n)) (float_of_int T)
  = (n * T <? s).
Proof.
  intros Hs Hn HT.
  destruct (holds_int_exists n ltac:(lia) ltac:(lia)) as (mn & en & Hhn).
  rewrite (float_of_int_holds n mn en ltac:(lia) Hhn).
  assert ((n <? 0) = false) as -> by (apply Z.ltb_ge; lia).
  destruct (decide (s = 0)) as [->|Hs0].
  { assert ((n * T <? 0) = false) as -> by (apply Z.ltb_ge; nia).
    change (float_of_int 0) with (S754_zero false). simpl float_div.
    destruct (decide (T = 0)) as [->|HT0]; [reflexivity|].
    destruct (holds_int_exists T ltac:(lia) ltac:(lia)) as (mT & eT & HhT).
    rewrite (float_of_int_holds T mT eT ltac:(lia) HhT).
    assert ((T <? 0) = false) as -> by (apply Z.ltb_ge; lia). reflexivity. }
  destruct (holds_int_exists s ltac:(lia) ltac:(lia)) as (ms & es & Hhs).
  rewrite (float_of_int_holds s ms es ltac:(lia) Hhs).
  assert ((s <? 0) = false) as -> by (apply Z.ltb_ge; lia).
  destruct Hhs as (Hcs & Hes & Hms), Hhn as (Hcn & Hen & Hmn).
  rewrite Z.abs_eq in Hms, Hmn by lia.
  unfold float_div, SFdiv.
  rewrite (SFdiv_core_canonical ms mn es en Hcs Hcn Hes Hen).
  pose proof (Z_div_mod (Zpos ms * 2 ^ 53) (Zpos mn) eq_refl) as Hdiv.
  destruct (Z.div_eucl (Zpos ms * 2 ^ 53) (Zpos mn)) as [q r].
  destruct Hdiv as [Hqr Hr]. simpl xorb.
  set (e' := es - en - 53).
  assert (0 < 2 ^ (- es)) as Hpes by (apply Z.pow_pos_nonneg; lia).
  assert (0 < 2 ^ (- en)) as Hpen by (apply Z.pow_pos_nonneg; lia).
  set (G := 2 ^ (53 - es)).
  set (P := 2 ^ (- e')).
  assert (Zpos ms * 2 ^ 53 = s * G) as HA.
  { rewrite Hms. unfold G. rewrite <- Z.mul_assoc, <- Z.pow_add_r by lia.
    do 2 f_equal. lia. }
  assert (Zpos mn * P = n * G) as HB.
  { rewrite Hmn. unfold G, P, e'.
    rewrite <- Z.mul_assoc, <- Z.pow_add_r by lia. do 2 f_equal. lia. }
  assert (Zpos mn < G) as HBG.
  { destruct Hcn as [[_ Hhi] _]. unfold G.
    assert (2 ^ 53 ≤ 2 ^ (53 - es)) by (apply Z.pow_le_mono_r; lia). lia. }
  assert (∃ p, P = 2 * p ∧ 0 < p) as (p & HP & Hp).
  { exists (2 ^ (- e' - 1)). split.
    - unfold P. rewrite <- Z.pow_succ_r by (unfold e'; lia). f_equal. lia.
    - apply Z.pow_pos_nonneg; unfold e'; lia. }
  assert (q * Zpos mn + r - (T * P) * Zpos mn = (s - n * T) * G) as Hcore.
  { replace (q * Zpos mn) with (Zpos mn * q) by ring. rewrite <- Hqr, HA.
    replace (T * P * Zpos mn) with (T * (Zpos mn * P)) by ring.
    rewrite HB. ring. }
  assert (2 ^ 52 ≤ q < 2 ^ 54) as Hq.
  { destruct Hcs as [[Hlo1 Hhi1] _], Hcn as [[Hlo2 Hhi2] _]. revert Hqr.
    pow_consts. intros Hqr. split.
    - destruct (Z.le_gt_cases 4503599627370496 q) as [|Hlt]; [done|].
      assert (Zpos mn * q ≤ Zpos mn * 4503599627370495)
        by (apply Z.mul_le_mono_nonneg_l; lia). lia.
    - destruct (Z.lt_ge_cases q 18014398509481984) as [|Hge]; [done|].
      assert (Zpos mn * 18014398509481984 ≤ Zpos mn * q)
        by (apply Z.mul_le_mono_nonneg_l; lia). lia. }
  assert (∃ mf ef V,
            binary_round_aux 53 1024 false q e' (new_location (Zpos mn) r)
              = S754_finite false mf ef
            ∧ canonical53 mf ef ∧ e' ≤ ef ∧ Zpos mf * 2 ^ (ef - e') = V
            ∧ (T * P < V ↔ 0 < s - n * T))
    as (mf & ef & V & -> & Hcf & Hef & HV & Hiff).
  { destruct (Z.lt_ge_cases q (2 ^ 53)) as [Hq53|Hq54].
    - destruct (round_quotient_53 q e' (new_location (Zpos mn) r))
        as (mf & ef & V & Heq & Hcf & Hef & HV & HVq & Hup);
        [lia | unfold e'; lia |].
      exists mf, ef, V. repeat (split; [done|]).
      apply (quotient_above_threshold_53 q r (Zpos mn) G); try done.
      intros HVup Hr0. apply (Hup HVup). subst r. unfold new_location.
      by destruct (IntDef.Z.even (Zpos mn)).
    - destruct (round_quotient_54 q e' (new_location (Zpos mn) r))
        as (mf & ef & V & v & Heq & Hcf & Hef & HV & HVv & HVq & Hdown);
        [lia | unfold e'; lia |].
      exists mf, ef, V. repeat (split; [done|]).
      apply (quotient_above_threshold_54 q r (Zpos mn) G _ _ _ (T * p) v);
        try done.
      + rewrite HP. ring.
      + intros HVd. apply (new_location_exact (Zpos mn)); [lia|].
        by apply Hdown. }
  assert ((n * T <? s) = true ↔ 0 < s - n * T) as Hltb
    by (rewrite Z.ltb_lt; lia).
  destruct (decide (T = 0)) as [->|HT0].
  { change (float_of_int 0) with (S754_zero false).
    unfold float_gt, SFltb. simpl.
    symmetry. apply Hltb. lia. }
  destruct (holds_int_exists T ltac:(lia) ltac:(lia)) as (mT & eT & HhT).
  rewrite (float_of_int_holds T mT eT ltac:(lia) HhT).
  assert ((T <? 0) = false) as -> by (apply Z.ltb_ge; lia).
  destruct HhT as (HcT & HeT & HmT). rewrite Z.abs_eq in HmT by lia.
  unfold float_gt.
  apply eq_true_iff_eq. rewrite Hltb, <- Hiff.
  set (c := Z.min e' eT).
  rewrite (float_lt_canonical mT mf eT ef c HcT Hcf) by lia.
  assert (0 < 2 ^ (e' - c)) as HK by (apply Z.pow_pos_nonneg; lia).
  assert (Zpos mT * 2 ^ (eT - c) = T * P * 2 ^ (e' - c)) as ->.
  { rewrite HmT. unfold P. rewrite <- !Z.mul_assoc, <- !Z.pow_add_r by lia.
    do 2 f_equal. lia. }
  assert (Zpos mf * 2 ^ (ef - c) = V * 2 ^ (e' - c)) as ->.
  { rewrite <- HV. rewrite <- !Z.mul_assoc, <- !Z.pow_add_r by lia.
    do 2 f_equal. lia. }
  split; intros Hlt.
  - apply (Z.mul_lt_mono_pos_r (2 ^ (e' - c))); done.
  - by apply Z.mul_lt_mono_pos_r.
Qed.

(** ** The exact arithmetic mean *)

Lemma exact_value_float_of_int (z : Z) :
  Z.abs z < 2 ^ 53 → (exact_value (float_of_int z) == inject_Z z)%Q.
Proof.
  intros Hsmall. destruct (decide (z = 0)) as [->|Hz]; [reflexivity|].
  destruct (holds_int_exists z Hz Hsmall) as (m & e & Hh).
  rewrite (float_of_int_holds z m e Hz Hh).
  destruct Hh as (_ & He & Hm). unfold exact_value.
  assert (∃ k, 0 ≤ k ∧ e = - k) as (k & Hk & ->) by (exists (- e); lia).
  rewrite Z.opp_involutive in Hm.
  assert (cond_Zopp (z <? 0) (Zpos m) = z * 2 ^ k) as ->.
  { rewrite Hm. destruct (Z.ltb_spec z 0); simpl; lia. }
  rewrite inject_Z_mult, Zpower_Qpower by lia. rewrite Qpower_opp.
  apply (Qdiv_mult_l (inject_Z z) (inject_Z 2 ^ k)).
  apply Qpower_not_0. discriminate.
Qed.

Lemma exact_sum_int ns :
  Forall (λ n, 0 ≤ n) ns → total ns < 2 ^ 53 →
  (foldr Qplus 0 (exact_value <$> (float_of_int <$> ns))
   == inject_Z (total ns))%Q.
Proof.
  induction ns as [|n ns IH]; intros Hns Hsmall; [reflexivity|].
  apply Forall_cons in Hns as [Hn Hns].
  pose proof (total_nonneg ns Hns) as Htot. simpl in Hsmall.
  simpl. rewrite IH by (done || lia).
  rewrite exact_value_float_of_int by lia.
  by rewrite inject_Z_plus.
Qed.

Lemma mean_above_int (S n T : Z) :
  0 < n → (inject_Z T < inject_Z S / inject_Z n)%Q ↔ n * T < S.
Proof.
  intros Hn. destruct n as [|p|p]; try lia.
  unfold Qlt, Qdiv, Qmult, Qinv, inject_Z. simpl. lia.
Qed.

(** On whole numbers, the test made in binary64 is the test on the exact
    arithmetic mean. *)
Lemma float_gt_mean_int compensated ns T :
  ns ≠ [] → Forall (λ n, 0 ≤ n) ns → total ns < 2 ^ 53 →
  Z.of_nat (length ns) < 2 ^ 53 → 0 ≤ T < 2 ^ 53 →
  float_gt
    (float_div (float_sum compensated (float_of_int <$> ns))
       (float_of_int (Z.of_nat (length (float_of_int <$> ns)))))
    (float_of_int T) = true
  ↔ (exact_value (float_of_int T)
     < arithmetic_mean (float_of_int <$> ns))%Q.
Proof.
  intros Hne Hns Hsmall Hlen HT.
  assert (0 < Z.of_nat (length ns)) as Hpos by (destruct ns; simpl; [done|lia]).
  pose proof (total_nonneg ns Hns) as Htot.
  rewrite float_sum_int by done. rewrite length_fmap.
  rewrite float_gt_quotient_int by lia.
  unfold arithmetic_mean. rewrite length_fmap.
  rewrite exact_sum_int by done.
  rewrite exact_value_float_of_int by lia.
  rewrite mean_above_int by done. apply Z.ltb_lt.
Qed.

(** The mean that [record_tbt] computes for whole numbers does not depend on
    the summation. *)
Lemma avg_tbt_int (w : nvml) (ns : list Z) :
  Forall (λ n, 0 ≤ n) ns → total ns < 2 ^ 53 →
  GPUPowerManager.avg_tbt w (float_of_int <$> ns)
  = float_div (float_of_int (total ns))
      (float_of_int (Z.of_nat (length ns))).
Proof.
  intros Hns Hsmall. unfold GPUPowerManager.avg_tbt.
  by rewrite float_sum_int, length_fmap.
Qed.

(** ** The rollback *)

Lemma append_evict_nonempty x values :
  GPUPowerManager.append_evict x values ≠ [].
Proof.
  unfold GPUPowerManager.append_evict.
  destruct (10 <? length (values ++ [x]))%nat eqn:Hlt.
  - apply Nat.ltb_lt in Hlt. rewrite length_app in Hlt. simpl in Hlt.
    destruct values as [|v [|v' values]]; simpl in *; try lia. discriminate.
  - by destruct values.
Qed.

(** C3, as the code has it.  On an enabled object with latency monitoring on
    whose managed devices all have a handle, [record_tbt] appends the sample
    (evicting beyond ten) and then rolls back exactly when the phase is
    Decode, the new window holds at least three samples and the quotient
    [sum(window) / len(window)], as computed in binary64, is strictly above
    the threshold.  The rollback is the Decode-to-Prefill transition of
    [enter_prefill_phase]: a look-up and a reset for every managed device,
    and the phase set to Prefill.  Otherwise the call returns with the phase
    and the call log as they were.  For a window of non-negative whole
    numbers with sum and count below [2^53] and a whole threshold in
    [0, 2^53), the computed test is the test of the exact arithmetic mean
    against the threshold. *)
Theorem record_tbt_rolls_back_iff (w : nvml) (x : float)
    (self : GPUPowerManager) (r : runtime) (log : list nvml_call) :
  enabled self = true → monitor_tbt self = true → attrs self = Some r →
  (∀ d, d ∈ device_ids r → handle_ok w d = true) →
  let values := GPUPowerManager.append_evict x (tbt_values r) in
  let appended := with_attrs (set_tbt_values values) self in
  let mean :=
    float_div (float_sum (compensated_sum w) values)
      (float_of_int (Z.of_nat (length values))) in
  let breach :=
    in_decode_phase r && (3 <=? length values)%nat
    && float_gt mean (tbt_threshold_ms self) in
  (breach = true →
     GPUPowerManager.record_tbt w x (self, log)
       = (Return (), (with_attrs (set_in_decode_phase false) appended,
                      log ++ reset_calls (device_ids r)))
     ∧ GPUPowerManager.record_tbt w x (self, log)
       = GPUPowerManager.enter_prefill_phase w (appended, log))
  ∧ (breach = false →
     GPUPowerManager.record_tbt w x (self, log) = (Return (), (appended, log))
     ∧ phase appended = phase self)
  ∧ (∀ ns T,
       values = float_of_int <$> ns → Forall (λ n, 0 ≤ n) ns →
       total ns < 2 ^ 53 → Z.of_nat (length ns) < 2 ^ 53 →
       tbt_threshold_ms self = float_of_int T → 0 ≤ T < 2 ^ 53 →
       float_gt mean (tbt_threshold_ms self) = true
       ↔ (exact_value (tbt_threshold_ms self) < arithmetic_mean values)%Q).
Proof.
  intros He Hm Ha Hok values appended mean breach.
  pose proof (record_tbt_enabled w x self r log He Hm Ha) as Hrec.
  cbv zeta in Hrec. unfold GPUPowerManager.avg_tbt in Hrec.
  fold values appended mean breach in Hrec.
  assert (attrs appended = Some (set_tbt_values values r)) as Ha'.
  { unfold appended, with_attrs. simpl. by rewrite Ha. }
  split; [|split].
  - intros Hb. rewrite Hb in Hrec.
    assert (in_decode_phase r = true) as Hd.
    { unfold breach in Hb. by destruct (in_decode_phase r). }
    rewrite Hrec.
    rewrite (rollback_is_enter_prefill w appended _ log He Ha' Hd).
    split; [|reflexivity].
    by rewrite (enter_prefill_from_decode w appended _ log He Ha' Hd Hok).
  - intros Hb. rewrite Hb in Hrec. split; [exact Hrec|].
    unfold phase. rewrite Ha', Ha. reflexivity.
  - intros ns T Hvalues Hns Hsmall Hlen -> HT. unfold mean.
    rewrite Hvalues. apply float_gt_mean_int; try done.
    intros ->. by apply (append_evict_nonempty x (tbt_values r)).
Qed.

Lemma record_tbt_rolls_back_iff_witness :
  GPUPowerManager.record_tbt two_gpus (float_of_int 170)
    (manager_on_two_gpus true [float_of_int 150; float_of_int 160], [])
  = (Return (),
     (manager_on_two_gpus false
        [float_of_int 150; float_of_int 160; float_of_int 170],
      reset_calls [0; 1]))
  ∧ (exact_value (float_of_int 100)
     < arithmetic_mean [float_of_int 150; float_of_int 160; float_of_int 170])%Q.
Proof.
  destruct (record_tbt_rolls_back_iff two_gpus (float_of_int 170)
    (manager_on_two_gpus true [float_of_int 150; float_of_int 160])
    _ [] eq_refl eq_refl eq_refl) as (Hbreach & _ & Hmean).
  { intros d _. reflexivity. }
  destruct (Hbreach eq_refl) as [Hfull _].
  split; [exact Hfull|].
  apply (Hmean [150; 160; 170] 100); try reflexivity.
  - repeat constructor; discriminate.
  - split; [discriminate|reflexivity].
Defined.

(** C3 fails in three ways.  With device 0 lost, the phase is Decode and the
    window [150, 160, 170] has the mean 160 above the threshold 100, but the
    handle look-up of the rollback raises [NVMLError]: no clock is reset and
    the phase stays Decode.  With the threshold [1/3] (as a float, just below
    the third) the window [0, 0, 1] has an arithmetic mean above the
    threshold, but the quotient computed in binary64 is the threshold itself:
    no rollback, under either summation.  And the window
    [131.23, 66.89, 131.08, 70.8] has an arithmetic mean of exactly 100, not
    above the threshold 100, but the plain left-to-right sum is
    [400.00000000000006] and the rollback is made; with the compensated sum
    of CPython 3.12 it is not. *)
Lemma record_tbt_breach_without_rollback :
  (phase (manager_on_two_gpus true [float_of_int 150; float_of_int 160])
   = Some true
   ∧ (exact_value (float_of_int 100)
      < arithmetic_mean
          [float_of_int 150; float_of_int 160; float_of_int 170])%Q
   ∧ GPUPowerManager.record_tbt gpu0_lost (float_of_int 170)
       (manager_on_two_gpus true [float_of_int 150; float_of_int 160], [])
     = (Raise NVMLError,
        (manager_on_two_gpus true
           [float_of_int 150; float_of_int 160; float_of_int 170],
         [GetHandleByIndex_call 0])))
  ∧ (GPUPowerManager.__init__ two_gpus true 5 true one_third None ((), [])
     = (Return (manager_with_threshold one_third false []),
        ((), init_calls [0; 1]))
     ∧ (exact_value one_third
        < arithmetic_mean [float_of_int 0; float_of_int 0; float_of_int 1])%Q
     ∧ GPUPowerManager.record_tbt two_gpus (float_of_int 1)
         (manager_with_threshold one_third true
            [float_of_int 0; float_of_int 0], [])
       = (Return (),
          (manager_with_threshold one_third true
             [float_of_int 0; float_of_int 0; float_of_int 1], []))
     ∧ GPUPowerManager.record_tbt (with_compensated_sum two_gpus)
         (float_of_int 1)
         (manager_with_threshold one_third true
            [float_of_int 0; float_of_int 0], [])
       = (Return (),
          (manager_with_threshold one_third true
             [float_of_int 0; float_of_int 0; float_of_int 1], [])))
  ∧ ((arithmetic_mean [tbt_131_23; tbt_66_89; tbt_131_08; tbt_70_8]
      == exact_value (float_of_int 100))%Q
     ∧ GPUPowerManager.record_tbt two_gpus tbt_70_8
         (manager_on_two_gpus true [tbt_131_23; tbt_66_89; tbt_131_08], [])
       = (Return (),
          (manager_on_two_gpus false
             [tbt_131_23; tbt_66_89; tbt_131_08; tbt_70_8],
           reset_calls [0; 1]))
     ∧ GPUPowerManager.record_tbt (with_compensated_sum two_gpus) tbt_70_8
         (manager_on_two_gpus true [tbt_131_23; tbt_66_89; tbt_131_08], [])
       = (Return (),
          (manager_on_two_gpus true
             [tbt_131_23; tbt_66_89; tbt_131_08; tbt_70_8], []))).
Proof. repeat split; vm_compute; reflexivity. Qed.


(** Scenario C on CPython 3.12 and later: the sums of the scenario are exact,
    so the compensated summation decides each step the same way. *)
Lemma scenario_C_with_compensated_sum :
  GPUPowerManager.record_tbt (with_compensated_sum two_gpus) (float_of_int 160)
    (manager_on_two_gpus true (float_of_int <$> [50; 60; 70; 150]), [])
  = (Return (),
     (manager_on_two_gpus true (float_of_int <$> [50; 60; 70; 150; 160]), []))
  ∧ GPUPowerManager.record_tbt (with_compensated_sum two_gpus)
      (float_of_int 170)
      (manager_on_two_gpus true (float_of_int <$> [50; 60; 70; 150; 160]), [])
    = (Return (),
       (manager_on_two_gpus false
          (float_of_int <$> [50; 60; 70; 150; 160; 170]),
        reset_calls [0; 1])).
Proof. split; vm_compute; reflexivity. Qed.


(** * Further properties of the manager *)

(** ** The calls of a request *)

Lemma reset_loop_log w ids σ :
  ∃ added,
    (for_each ids (GPUPowerManager.reset_device w) σ).2 = (σ.1, σ.2 ++ added)
    ∧ Forall (λ c, transition_call c = true) added
    ∧ (length added ≤ 2 * length ids)%nat.
Proof.
  revert σ. induction ids as [|d ids IH]; intros [self log]; simpl.
  - exists []. unfold ret. simpl. rewrite app_nil_r.
    split; [reflexivity|]. split; [apply Forall_nil_2 | simpl; lia].
  - unfold bind at 1.
    assert (∃ o added,
              GPUPowerManager.reset_device w d (self, log)
                = (o, (self, log ++ added))
              ∧ Forall (λ c, transition_call c = true) added
              ∧ (length added ≤ 2)%nat) as (o & first & -> & Hfirst & Hlen).
    { unfold GPUPowerManager.reset_device, nvmlDeviceGetHandleByIndex,
        nvmlDeviceResetGpuLockedClocks.
      unfold_monad. destruct (handle_ok w d); simpl.
      - exists (Return ()),
          [GetHandleByIndex_call d; ResetGpuLockedClocks_call d].
        rewrite <- app_assoc. simpl.
        split; [by destruct (reset_locked_ok w d)|].
        split; [repeat constructor | simpl; lia].
      - exists (Raise NVMLError), [GetHandleByIndex_call d].
        split; [done|]. split; [repeat constructor | simpl; lia]. }
    destruct o as [[]|e].
    + destruct (IH (self, log ++ first)) as (rest & -> & Hrest & Hlen').
      exists (first ++ rest). simpl. rewrite <- app_assoc.
      split; [done|]. split; [by apply Forall_app|].
      rewrite length_app. lia.
    + exists first. split; [done|]. split; [done|lia].
Qed.

Lemma lock_loop_log w ids σ :
  ∃ added,
    (for_each ids (GPUPowerManager.lock_device w) σ).2 = (σ.1, σ.2 ++ added)
    ∧ Forall (λ c, transition_call c = true) added
    ∧ (length added ≤ 2 * length ids)%nat.
Proof.
  revert σ. induction ids as [|d ids IH]; intros [self log]; simpl.
  - exists []. unfold ret. simpl. rewrite app_nil_r.
    split; [reflexivity|]. split; [apply Forall_nil_2 | simpl; lia].
  - unfold bind at 1.
    assert (∃ o, GPUPowerManager.lock_device w d (self, log)
                 = (o, (self, log ++ [GetHandleByIndex_call d]))) as [o ->].
    { unfold GPUPowerManager.lock_device, nvmlDeviceGetHandleByIndex.
      unfold_monad. destruct (handle_ok w d); simpl; [|by eexists].
      destruct (attrs self) as [r|]; simpl; [|by eexists].
      destruct (target_clocks r !! d); by eexists. }
    destruct o as [[]|e].
    + destruct (IH (self, log ++ [GetHandleByIndex_call d]))
        as (rest & -> & Hrest & Hlen').
      exists (GetHandleByIndex_call d :: rest). simpl. rewrite <- app_assoc.
      split; [done|]. split; [by constructor|]. simpl. lia.
    + exists [GetHandleByIndex_call d]. split; [done|].
      split; [repeat constructor | simpl; lia].
Qed.

Lemma reset_clocks_log w self log :
  ∃ added,
    (GPUPowerManager.reset_clocks w (self, log)).2 = (self, log ++ added)
    ∧ Forall (λ c, transition_call c = true) added
    ∧ (length added ≤ 2 * length (managed_devices self))%nat.
Proof.
  unfold GPUPowerManager.reset_clocks, managed_devices. unfold_monad.
  destruct (enabled self); simpl.
  2:{ exists []. rewrite app_nil_r.
    split; [reflexivity|]. split; [apply Forall_nil_2 | simpl; lia]. }
  destruct (attrs self) as [r|]; simpl.
  2:{ exists []. rewrite app_nil_r.
    split; [reflexivity|]. split; [apply Forall_nil_2 | simpl; lia]. }
  apply (reset_loop_log w (device_ids r) (self, log)).
Qed.

Lemma managed_devices_with_attrs_phase b self :
  managed_devices (with_attrs (set_in_decode_phase b) self)
  = managed_devices self.
Proof. unfold managed_devices, with_attrs. simpl. by destruct (attrs self). Qed.

Lemma managed_devices_with_attrs_window vs self :
  managed_devices (with_attrs (set_tbt_values vs) self) = managed_devices self.
Proof. unfold managed_devices, with_attrs. simpl. by destruct (attrs self). Qed.

(** What one request adds to the call log. *)
Lemma perform_log w req self log :
  ∃ added,
    (perform w req (self, log)).2.2 = log ++ added
    ∧ Forall (λ c, transition_call c = true) added
    ∧ (length added ≤ 2 * length (managed_devices self))%nat.
Proof.
  assert (∃ added : list nvml_call,
            log = log ++ added
            ∧ Forall (λ c, transition_call c = true) added
            ∧ (length added ≤ 2 * length (managed_devices self))%nat) as Hnone.
  { exists []. rewrite app_nil_r.
    split; [reflexivity|]. split; [apply Forall_nil_2 | simpl; lia]. }
  destruct req as [| |x]; simpl.
  - unfold GPUPowerManager.enter_decode_phase. unfold_monad.
    destruct (enabled self); simpl; [|exact Hnone].
    destruct (attrs self) as [r|] eqn:Ha; simpl; [|exact Hnone].
    destruct (in_decode_phase r); simpl; [exact Hnone|]. rew_fields.
    destruct (lock_loop_log w (device_ids r) (self, log))
      as (added & Heq & Hadded & Hlen).
    assert (managed_devices self = device_ids r) as Hm
      by (unfold managed_devices; by rewrite Ha).
    rewrite Hm.
    destruct (for_each _ _ _) as [[[]|e] [self' log']]; simpl in *;
      exists added; (split; [congruence|done]).
  - unfold GPUPowerManager.enter_prefill_phase.
    cbv beta iota zeta delta [bind ret get modify raise attr]. simpl.
    destruct (enabled self); simpl; [|exact Hnone].
    destruct (attrs self) as [r|] eqn:Ha; simpl; [|exact Hnone].
    destruct (in_decode_phase r); simpl; [|exact Hnone].
    destruct (reset_clocks_log w self log) as (added & Heq & Hadded & Hlen).
    destruct (GPUPowerManager.reset_clocks w (self, log))
      as [[[]|e] [self' log']]; simpl in *;
      exists added; (split; [congruence|done]).
  - destruct (enabled self) eqn:He.
    2:{ unfold GPUPowerManager.record_tbt. unfold_monad. by rewrite He. }
    destruct (monitor_tbt self) eqn:Hm.
    2:{ unfold GPUPowerManager.record_tbt. unfold_monad. by rewrite He, Hm. }
    destruct (attrs self) as [r|] eqn:Ha.
    2:{ unfold GPUPowerManager.record_tbt. unfold_monad. by rew_fields. }
    rewrite (record_tbt_enabled w x self r log He Hm Ha).
    set (appended := with_attrs _ self).
    destruct (_ && _ && _); [|exact Hnone].
    unfold bind.
    destruct (reset_clocks_log w appended log) as (added & Heq & Hadded & Hlen).
    unfold appended in Hlen. rewrite managed_devices_with_attrs_window in Hlen.
    destruct (GPUPowerManager.reset_clocks w (appended, log))
      as [[[]|e] [self' log']]; simpl in *;
      exists added; (split; [congruence|done]).
Qed.

Lemma perform_keeps_managed w req σ :
  managed_devices (perform w req σ).2.1 = managed_devices σ.1.
Proof.
  pose proof (perform_keeps_config w req σ) as Hcfg.
  unfold config_of in Hcfg. injection Hcfg as _ _ _ _ Hrec.
  unfold managed_devices.
  destruct (attrs (perform w req σ).2.1), (attrs σ.1); simpl in *; congruence.
Qed.

(** X1.  Whatever the platform does, a sequence of requests only appends to
    the call log; what it appends are handle look-ups and locked-clock
    resets only (never an init, a shutdown, a clock query or a locked-range
    call), and at most two calls per managed device and request. *)
Theorem requests_only_look_up_and_reset (w : nvml) (rs : list request)
    (self : GPUPowerManager) (log : list nvml_call) :
  ∃ added,
    (serve w rs (self, log)).2.2 = log ++ added
    ∧ Forall (λ c, transition_call c = true) added
    ∧ (length added ≤ 2 * length (managed_devices self) * length rs)%nat.
Proof.
  revert self log. induction rs as [|req rs IH]; intros self log; simpl.
  - exists []. rewrite app_nil_r.
    split; [reflexivity|]. split; [apply Forall_nil_2 | simpl; lia].
  - destruct (perform_log w req self log) as (first & Hfirst & Hkind & Hlen).
    pose proof (perform_keeps_managed w req (self, log)) as Hsame.
    destruct (perform w req (self, log)) as [o [self' log']]. simpl in *.
    destruct (IH self' log') as (rest & Hrest & Hkind' & Hlen').
    destruct (serve w rs (self', log')) as [os [self'' log'']]. simpl in *.
    exists (first ++ rest). subst log' log''. rewrite <- app_assoc.
    split; [done|]. split; [by apply Forall_app|].
    rewrite length_app, Hsame in *. lia.
Qed.

(** ** Repeating and undoing a transition *)

Lemma with_attrs_phase_attrs b self r :
  attrs self = Some r →
  attrs (with_attrs (set_in_decode_phase b) self)
  = Some (set_in_decode_phase b r).
Proof. intros Ha. unfold with_attrs. simpl. by rewrite Ha. Qed.

(** X2.  A transition that has returned is not repeated: calling
    [enter_decode_phase] again right after it returned, or
    [enter_prefill_phase] again right after it returned, returns at once
    without a device call and without touching the object, on any
    platform. *)
Theorem repeated_transition_is_noop (w w' : nvml)
    (σ σ' : GPUPowerManager * list nvml_call) :
  (GPUPowerManager.enter_decode_phase w σ = (Return (), σ') →
   GPUPowerManager.enter_decode_phase w' σ' = (Return (), σ'))
  ∧ (GPUPowerManager.enter_prefill_phase w σ = (Return (), σ') →
     GPUPowerManager.enter_prefill_phase w' σ' = (Return (), σ')).
Proof.
  destruct σ as [self log]. split.
  - unfold GPUPowerManager.enter_decode_phase at 1.
    cbv beta iota zeta delta [bind ret get modify raise attr]. simpl.
    destruct (enabled self) eqn:He; simpl.
    2:{ intros Hrun. injection Hrun as <-.
        unfold GPUPowerManager.enter_decode_phase. unfold_monad.
        by rewrite He. }
    destruct (attrs self) as [r|] eqn:Ha; simpl; [|discriminate].
    destruct (in_decode_phase r) eqn:Hd; simpl.
    { intros Hrun. injection Hrun as <-.
      unfold GPUPowerManager.enter_decode_phase. unfold_monad.
      rew_fields. by rewrite Hd. }
    rew_fields.
    pose proof (for_each_keeps_self _ (lock_device_keeps_self w)
                  (device_ids r) (self, log)) as Hself.
    destruct (for_each _ _ _) as [[[]|e] [self1 log1]]; [|discriminate].
    simpl in Hself. subst self1. simpl. intros Hrun. injection Hrun as <-.
    unfold GPUPowerManager.enter_decode_phase. unfold_monad.
    by rew_fields.
  - unfold GPUPowerManager.enter_prefill_phase at 1.
    cbv beta iota zeta delta [bind ret get modify raise attr]. simpl.
    destruct (enabled self) eqn:He; simpl.
    2:{ intros Hrun. injection Hrun as <-.
        unfold GPUPowerManager.enter_prefill_phase. unfold_monad.
        by rewrite He. }
    destruct (attrs self) as [r|] eqn:Ha; simpl; [|discriminate].
    destruct (in_decode_phase r) eqn:Hd; simpl.
    2:{ intros Hrun. injection Hrun as <-.
        unfold GPUPowerManager.enter_prefill_phase.
        cbv beta iota zeta delta [bind ret get modify raise attr].
        rew_fields. by rewrite Hd. }
    pose proof (reset_clocks_keeps_self w (self, log)) as Hself.
    destruct (GPUPowerManager.reset_clocks w (self, log))
      as [[[]|e] [self1 log1]]; [|discriminate].
    simpl in Hself. subst self1. simpl. intros Hrun. injection Hrun as <-.
    unfold GPUPowerManager.enter_prefill_phase.
    cbv beta iota zeta delta [bind ret get modify raise attr].
    by rew_fields.
Qed.

Lemma repeated_transition_is_noop_witness :
  GPUPowerManager.enter_decode_phase gpu0_lost
    (manager_on_two_gpus true [],
     [GetHandleByIndex_call 0; GetHandleByIndex_call 1])
  = (Return (), (manager_on_two_gpus true [],
                 [GetHandleByIndex_call 0; GetHandleByIndex_call 1])).
Proof.
  destruct (repeated_transition_is_noop two_gpus gpu0_lost
              (manager_on_two_gpus false [], [])
              (manager_on_two_gpus true [],
               [GetHandleByIndex_call 0; GetHandleByIndex_call 1]))
    as [Hdecode _].
  apply Hdecode. vm_compute. reflexivity.
Defined.

Lemma with_attrs_phase_back self r :
  attrs self = Some r →
  with_attrs (set_in_decode_phase (in_decode_phase r))
    (with_attrs (set_in_decode_phase (negb (in_decode_phase r))) self)
  = self.
Proof.
  intros Ha. destruct self as [en red mon thr a]. simpl in Ha. subst a.
  destruct r. reflexivity.
Qed.

(** X3.  Entering Decode and then Prefill is a round trip.  On an enabled
    object in Prefill whose devices all have a handle and a target clock, the
    two calls return normally, the object is afterwards exactly what it was,
    and the log has grown by one handle look-up per device followed by a
    look-up and a reset per device. *)
Theorem decode_then_prefill_round_trip (w : nvml) (self : GPUPowerManager)
    (r : runtime) (log : list nvml_call) :
  enabled self = true → attrs self = Some r → in_decode_phase r = false →
  (∀ d, d ∈ device_ids r → handle_ok w d = true) →
  (∀ d, d ∈ device_ids r → is_Some (target_clocks r !! d)) →
  serve w [EnterDecode; EnterPrefill] (self, log)
  = ([Return (); Return ()],
     (self, log ++ (GetHandleByIndex_call <$> device_ids r)
                ++ reset_calls (device_ids r))).
Proof.
  intros He Ha Hd Hok Htgt. simpl.
  rewrite (enter_decode_from_prefill w self r log He Ha Hd Hok Htgt).
  rewrite (enter_prefill_from_decode w
             (with_attrs (set_in_decode_phase true) self)
             (set_in_decode_phase true r) _ He
             (with_attrs_phase_attrs true self r Ha) eq_refl Hok).
  pose proof (with_attrs_phase_back self r Ha) as Hback.
  rewrite Hd in Hback. simpl in Hback. rewrite Hback.
  by rewrite <- app_assoc.
Qed.

Lemma decode_then_prefill_round_trip_witness :
  serve gpu0_reset_fails [EnterDecode; EnterPrefill]
    (manager_on_two_gpus false [], [])
  = ([Return (); Return ()],
     (manager_on_two_gpus false [],
      [GetHandleByIndex_call 0; GetHandleByIndex_call 1;
       GetHandleByIndex_call 0; ResetGpuLockedClocks_call 0;
       GetHandleByIndex_call 1; ResetGpuLockedClocks_call 1])).
Proof.
  apply (decode_then_prefill_round_trip gpu0_reset_fails
           (manager_on_two_gpus false []) _ [] eq_refl eq_refl eq_refl).
  - intros d _. reflexivity.
  - intros d Hd. apply list_elem_of_In in Hd.
    destruct Hd as [<-|[<-|[]]]; by eexists.
Defined.

(** ** Exceptions and the phase *)

(** X4.  A request that raises never changes the phase.  A transition that
    raises leaves the whole object as it was; a [record_tbt] that raises has
    still recorded its sample, by the append-and-evict step. *)
Theorem raising_request_keeps_phase (w : nvml) (req : request)
    (self : GPUPowerManager) (log : list nvml_call) (e : exn) :
  (perform w req (self, log)).1 = Raise e →
  phase (perform w req (self, log)).2.1 = phase self
  ∧ match req with
    | RecordTbt x =>
        window (perform w req (self, log)).2.1
        = GPUPowerManager.append_evict x <$> window self
    | _ => (perform w req (self, log)).2.1 = self
    end.
Proof.
  destruct req as [| |x]; simpl.
  - unfold GPUPowerManager.enter_decode_phase. unfold_monad.
    destruct (enabled self); simpl; [|discriminate].
    destruct (attrs self) as [r|] eqn:Ha; simpl; [|done].
    destruct (in_decode_phase r); simpl; [discriminate|]. rew_fields.
    pose proof (for_each_keeps_self _ (lock_device_keeps_self w)
                  (device_ids r) (self, log)) as Hself.
    destruct (for_each _ _ _) as [[[]|e'] [self1 log1]]; simpl in *;
      [discriminate|]. by subst self1.
  - unfold GPUPowerManager.enter_prefill_phase.
    cbv beta iota zeta delta [bind ret get modify raise attr]. simpl.
    destruct (enabled self); simpl; [|discriminate].
    destruct (attrs self) as [r|] eqn:Ha; simpl; [|done].
    destruct (in_decode_phase r); simpl; [|discriminate].
    pose proof (reset_clocks_keeps_self w (self, log)) as Hself.
    destruct (GPUPowerManager.reset_clocks w (self, log))
      as [[[]|e'] [self1 log1]]; simpl in *; [discriminate|]. by subst self1.
  - intros Hraise. split.
    2:{ pose proof (record_tbt_window w x (self, log)) as Hwin.
        simpl in Hwin. rewrite Hwin.
        destruct (enabled self) eqn:He; simpl.
        2:{ revert Hraise. unfold GPUPowerManager.record_tbt. unfold_monad.
            by rewrite He. }
        destruct (monitor_tbt self) eqn:Hm; simpl; [done|].
        revert Hraise. unfold GPUPowerManager.record_tbt. unfold_monad.
        by rewrite He, Hm. }
    destruct (enabled self) eqn:He.
    2:{ revert Hraise. unfold GPUPowerManager.record_tbt. unfold_monad.
        by rewrite He. }
    destruct (monitor_tbt self) eqn:Hm.
    2:{ revert Hraise. unfold GPUPowerManager.record_tbt. unfold_monad.
        by rewrite He, Hm. }
    destruct (attrs self) as [r|] eqn:Ha.
    2:{ unfold GPUPowerManager.record_tbt. unfold_monad. by rew_fields. }
    revert Hraise. rewrite (record_tbt_enabled w x self r log He Hm Ha).
    set (appended := with_attrs _ self).
    assert (phase appended = phase self) as Hphase.
    { unfold appended, phase, with_attrs. simpl. by rewrite Ha. }
    destruct (_ && _ && _); [|discriminate].
    unfold bind.
    pose proof (reset_clocks_keeps_self w (appended, log)) as Hself.
    destruct (GPUPowerManager.reset_clocks w (appended, log))
      as [[[]|e'] [self1 log1]]; simpl in *; [discriminate|].
    by subst self1.
Qed.

Lemma raising_request_keeps_phase_witness :
  phase (perform gpu0_lost (RecordTbt (float_of_int 170))
           (manager_on_two_gpus true [float_of_int 150; float_of_int 160],
            [])).2.1
  = Some true
  ∧ window (perform gpu0_lost (RecordTbt (float_of_int 170))
              (manager_on_two_gpus true [float_of_int 150; float_of_int 160],
               [])).2.1
    = Some [float_of_int 150; float_of_int 160; float_of_int 170].
Proof.
  apply (raising_request_keeps_phase gpu0_lost (RecordTbt (float_of_int 170))
           (manager_on_two_gpus true [float_of_int 150; float_of_int 160])
           [] NVMLError).
  vm_compute. reflexivity.
Defined.

(** ** What no request changes *)

(** X5.  The configuration and the device records are read-only after
    construction: no sequence of requests changes the enabled flag, the
    reduction percentage, the monitoring flag, the threshold, the list of
    managed devices or the recorded original and target clocks. *)
Theorem requests_keep_configuration (w : nvml) (rs : list request)
    (σ : GPUPowerManager * list nvml_call) :
  config_of (serve w rs σ).2.1 = config_of σ.1.
Proof.
  revert σ. induction rs as [|req rs IH]; intros σ; simpl; [reflexivity|].
  pose proof (perform_keeps_config w req σ) as Hstep.
  destruct (perform w req σ) as [o σ1]. specialize (IH σ1).
  destruct (serve w rs σ1) as [os σ2]. simpl in *. congruence.
Qed.

(** ** The constructor *)

Lemma init_clock_info_success w reduction d clocks log clocks' log' :
  GPUPowerManager.init_clock_info w reduction d (clocks, log)
    = (Return (), (clocks', log')) →
  log' = log ++ [GetHandleByIndex_call d; GetMaxClockInfo_call d;
                 GetClockInfo_call d]
  ∧ ∃ c, clock_info w d = Some c ∧ clocks'.1 = <[d := c_uint c]> clocks.1.
Proof.
  unfold GPUPowerManager.init_clock_info, nvmlDeviceGetHandleByIndex,
    nvmlDeviceGetMaxClockInfo, nvmlDeviceGetClockInfo.
  unfold_monad.
  destruct (handle_ok w d); simpl; [|discriminate].
  destruct (max_clock_info w d) as [m|]; simpl; [|discriminate].
  destruct (clock_info w d) as [c|] eqn:Hc; simpl; [|discriminate].
  destruct (target_clock_of (c_uint m) reduction) as [t|e]; simpl;
    [|discriminate].
  intros Hrun. injection Hrun as <- <-.
  split; [by rewrite <- !app_assoc|]. by exists c.
Qed.

Lemma init_loop_calls w reduction ids : ∀ clocks log clocks' log',
  for_each ids (GPUPowerManager.init_clock_info w reduction) (clocks, log)
    = (Return (), (clocks', log')) →
  log' = log ++ (ids ≫= λ d, [GetHandleByIndex_call d; GetMaxClockInfo_call d;
                              GetClockInfo_call d])
  ∧ ∀ d, (d ∈ ids →
          ∃ c, clock_info w d = Some c ∧ clocks'.1 !! d = Some (c_uint c))
         ∧ (d ∉ ids → clocks'.1 !! d = clocks.1 !! d).
Proof.
  induction ids as [|d0 ids IH]; intros clocks log clocks' log' Hrun.
  - simpl in Hrun. injection Hrun as <- <-. rewrite app_nil_r.
    split; [done|]. intros d.
    split; [intros Hd; by apply elem_of_nil in Hd | done].
  - simpl in Hrun. unfold bind at 1 in Hrun.
    destruct (GPUPowerManager.init_clock_info w reduction d0 (clocks, log))
      as [[[]|e] [clocks1 log1]] eqn:Hbody; [|discriminate].
    destruct (init_clock_info_success _ _ _ _ _ _ _ Hbody)
      as (-> & c0 & Hc0 & Hclocks1).
    destruct (IH _ _ _ _ Hrun) as [-> Hrest].
    split; [simpl; by rewrite <- app_assoc|]. intros d.
    destruct (Hrest d) as [Hin Hout].
    destruct (decide (d ∈ ids)) as [Hd|Hd].
    + split; [intros _; by apply Hin|].
      intros Hd0. apply not_elem_of_cons in Hd0 as [_ Hd0]. by destruct Hd0.
    + rewrite (Hout Hd), Hclocks1. split.
      * intros Hd0. apply elem_of_cons in Hd0 as [->|Hd0]; [|by destruct Hd].
        exists c0. by rewrite lookup_insert_eq.
      * intros Hd0. apply not_elem_of_cons in Hd0 as [Hd0 _].
        by rewrite lookup_insert_ne.
Qed.

(** X6.  A constructor run that returns an enabled object has issued
    [nvmlInit] once and then, device by device in the order of the list, a
    handle look-up, a maximum-clock query and a current-clock query, and
    nothing else.  The object manages exactly the requested devices (all the
    CUDA devices [0 .. n-1] when no list is given), carries the constructor
    arguments, starts in Prefill with an empty window, and records for every
    managed device its current clock, as read through the binding, as the
    original clock. *)
Theorem constructor_records_devices (w : nvml) (en : bool) (reduction : Z)
    (mon : bool) (thr : float) (ids : option (list Z))
    (log log' : list nvml_call) (self : GPUPowerManager) :
  GPUPowerManager.__init__ w en reduction mon thr ids ((), log)
    = (Return self, ((), log')) →
  enabled self = true →
  let managed := default (range (cuda_device_count w)) ids in
  log' = log ++ init_calls managed
  ∧ decode_clock_reduction_percent self = reduction
  ∧ monitor_tbt self = mon
  ∧ tbt_threshold_ms self = thr
  ∧ phase self = Some false
  ∧ window self = Some []
  ∧ ∃ r, attrs self = Some r
         ∧ device_ids r = managed
         ∧ ∀ d, d ∈ managed →
             ∃ c, clock_info w d = Some c
                  ∧ original_clocks r !! d = Some (c_uint c).
Proof.
  unfold GPUPowerManager.__init__.
  destruct (en && NVML_AVAILABLE w); simpl.
  2:{ unfold ret. intros Hrun. injection Hrun as <- _. simpl. discriminate. }
  unfold nvmlInit. unfold_monad.
  destruct (init_ok w); simpl; [|discriminate].
  assert (match ids with
          | Some l => l
          | None => range (cuda_device_count w)
          end = default (range (cuda_device_count w)) ids) as ->
    by (by destruct ids).
  destruct (for_each _ _ _) as [[[]|e] [clocks log1]] eqn:Hloop; [|discriminate].
  intros Hrun _. injection Hrun as <- <-.
  destruct (init_loop_calls _ _ _ _ _ _ _ Hloop) as [-> Horig].
  split; [by rewrite <- app_assoc|]. simpl. repeat split.
  eexists. split; [reflexivity|]. simpl. split; [reflexivity|].
  intros d Hd. by apply Horig.
Qed.

Lemma constructor_records_devices_witness :
  ∃ r, attrs (manager_on_two_gpus false []) = Some r
       ∧ device_ids r = [0; 1]
       ∧ ∀ d, d ∈ [0; 1] →
           ∃ c, clock_info two_gpus d = Some c
                ∧ original_clocks r !! d = Some (c_uint c).
Proof.
  destruct (constructor_records_devices two_gpus true 5 true
              (float_of_int 100) None [] _ _ constructor_on_two_gpus eq_refl)
    as (_ & _ & _ & _ & _ & _ & Hrecords).
  exact Hrecords.
Defined.

(** ** The finalizer *)

(** X7.  [__del__] does nothing on an inert object.  On an enabled object
    whose devices all have a handle it returns normally, in either phase and
    even when every reset and the shutdown itself fail, after a look-up and
    a reset for every managed device followed by one [nvmlShutdown]; the
    object is left as it was. *)
Theorem finalizer_resets_then_shuts_down (w : nvml) (self : GPUPowerManager)
    (log : list nvml_call) :
  (enabled self = false →
   GPUPowerManager.__del__ w (self, log) = (Return (), (self, log)))
  ∧ (enabled self = true →
     (∀ d, d ∈ managed_devices self → handle_ok w d = true) →
     is_Some (attrs self) →
     GPUPowerManager.__del__ w (self, log)
     = (Return (),
        (self, log ++ reset_calls (managed_devices self)
                   ++ [nvmlShutdown_call]))).
Proof.
  split.
  - intros He. unfold GPUPowerManager.__del__. unfold_monad. by rewrite He.
  - intros He Hok [r Ha].
    assert (managed_devices self = device_ids r) as Hm
      by (unfold managed_devices; by rewrite Ha).
    rewrite Hm in *. by apply del_enabled.
Qed.

Lemma finalizer_resets_then_shuts_down_witness :
  GPUPowerManager.__del__ gpu0_reset_fails (manager_on_two_gpus false [], [])
  = (Return (),
     (manager_on_two_gpus false [],
      [GetHandleByIndex_call 0; ResetGpuLockedClocks_call 0;
       GetHandleByIndex_call 1; ResetGpuLockedClocks_call 1;
       nvmlShutdown_call])).
Proof.
  destruct (finalizer_resets_then_shuts_down gpu0_reset_fails
              (manager_on_two_gpus false []) []) as [_ Henabled].
  apply Henabled; [reflexivity | intros d _; reflexivity | by eexists].
Defined.

Lemma reset_loop_lost_handle w ids σ d :
  d ∈ ids → handle_ok w d = false →
  (for_each ids (GPUPowerManager.reset_device w) σ).1 = Raise NVMLError.
Proof.
  revert σ. induction ids as [|d0 ids IH]; intros [self log] Hd Hlost.
  - by apply elem_of_nil in Hd.
  - simpl. unfold bind at 1.
    unfold GPUPowerManager.reset_device at 1, nvmlDeviceGetHandleByIndex,
      nvmlDeviceResetGpuLockedClocks.
    unfold_monad.
    destruct (handle_ok w d0) eqn:Hd0; simpl; [|reflexivity].
    apply elem_of_cons in Hd as [->|Hd]; [congruence|].
    destruct (reset_locked_ok w d0); simpl; by apply IH.
Qed.

(** X8.  When the handle of a managed device cannot be obtained, [__del__] of
    an enabled object raises [NVMLError] out of [reset_clocks], which is
    called outside the [try] block, and [nvmlShutdown] is never called: the
    calls made are look-ups and resets only. *)
Theorem finalizer_skips_shutdown_on_lost_handle (w : nvml)
    (self : GPUPowerManager) (log : list nvml_call) (d : Z) :
  enabled self = true → d ∈ managed_devices self → handle_ok w d = false →
  ∃ added,
    GPUPowerManager.__del__ w (self, log)
      = (Raise NVMLError, (self, log ++ added))
    ∧ Forall (λ c, ∃ d', c = GetHandleByIndex_call d'
                         ∨ c = ResetGpuLockedClocks_call d') added
    ∧ nvmlShutdown_call ∉ added.
Proof.
  intros He Hd Hlost.
  destruct (attrs self) as [r|] eqn:Ha.
  2:{ unfold managed_devices in Hd. rewrite Ha in Hd.
      by apply elem_of_nil in Hd. }
  assert (managed_devices self = device_ids r) as Hm
    by (unfold managed_devices; by rewrite Ha).
  rewrite Hm in Hd.
  destruct (reset_loop_log w (device_ids r) (self, log))
    as (added & Hstate & Hkind & _).
  pose proof (reset_loop_lost_handle w (device_ids r) (self, log) d Hd Hlost)
    as Hraise.
  exists added. split; [|split].
  - unfold GPUPowerManager.__del__, GPUPowerManager.reset_clocks.
    cbv beta iota zeta delta [bind ret get modify raise attr]. rew_fields.
    destruct (for_each _ _ _) as [o σ1]. simpl in *. by subst o σ1.
  - eapply Forall_impl; [exact Hkind|].
    intros [] Hc; try discriminate; eexists; [by left | by right].
  - intros Hin. rewrite Forall_forall in Hkind.
    by specialize (Hkind _ Hin).
Qed.

Lemma finalizer_skips_shutdown_on_lost_handle_witness :
  ∃ added,
    GPUPowerManager.__del__ gpu0_lost (manager_on_two_gpus true [], [])
      = (Raise NVMLError, (manager_on_two_gpus true [], [] ++ added))
    ∧ Forall (λ c, ∃ d', c = GetHandleByIndex_call d'
                         ∨ c = ResetGpuLockedClocks_call d') added
    ∧ nvmlShutdown_call ∉ added.
Proof.
  apply (finalizer_skips_shutdown_on_lost_handle gpu0_lost
           (manager_on_two_gpus true []) [] 0);
    [reflexivity | apply elem_of_cons; by left | reflexivity].
Defined.

(** ** The module-level instance *)

(** X9.  After [initialize_power_manager], [get_power_manager] returns the
    instance that was just returned.  After an [initialize_power_manager]
    that raised, it returns [None], also when a previous instance existed:
    the previous instance is unbound before the new one is constructed. *)
Theorem get_after_initialize (w : nvml) (last_reference en : bool)
    (reduction : Z) (mon : bool) (thr : float) (ids : option (list Z))
    (σ : option GPUPowerManager * list nvml_call) :
  match initialize_power_manager w last_reference en reduction mon thr ids σ
  with
  | (Return self, σ') => get_power_manager σ' = (Return (Some self), σ')
  | (Raise _, σ') => get_power_manager σ' = (Return None, σ')
  end.
Proof.
  destruct σ as [previous log].
  unfold initialize_power_manager, get_power_manager, finalize.
  cbv beta iota zeta delta [bind ret get modify]. simpl.
  destruct previous as [old|]; simpl.
  - destruct last_reference; simpl.
    + destruct (GPUPowerManager.__del__ w (old, log)) as [o [old' log1]].
      rewrite (init_state_agnostic w en reduction mon thr ids None).
      by destruct (GPUPowerManager.__init__ _ _ _ _ _ _ _)
        as [[self|e] [[] log']].
    + rewrite (init_state_agnostic w en reduction mon thr ids None).
      by destruct (GPUPowerManager.__init__ _ _ _ _ _ _ _)
        as [[self|e] [[] log']].
  - rewrite (init_state_agnostic w en reduction mon thr ids None).
    by destruct (GPUPowerManager.__init__ _ _ _ _ _ _ _)
      as [[self|e] [[] log']].
Qed.

(** X10.  An inert previous instance is replaced without a trace:
    re-initializing over it issues exactly the calls of a first
    initialization and gives the same result, whether or not the module held
    its last reference. *)
Theorem reinitialization_over_inert_instance (w : nvml)
    (last_reference en : bool) (reduction : Z) (mon : bool) (thr : float)
    (ids : option (list Z)) (old : GPUPowerManager) (log : list nvml_call) :
  enabled old = false →
  initialize_power_manager w last_reference en reduction mon thr ids
    (Some old, log)
  = initialize_power_manager w last_reference en reduction mon thr ids
      (None, log).
Proof.
  intros He. unfold initialize_power_manager, finalize, GPUPowerManager.__del__.
  cbv beta iota zeta delta [bind ret get modify]. simpl. rewrite He.
  destruct last_reference; simpl;
    rewrite (init_state_agnostic w en reduction mon thr ids None);
    by destruct (GPUPowerManager.__init__ _ _ _ _ _ _ _) as [[self|e] [[] log']].
Qed.

Lemma reinitialization_over_inert_instance_witness :
  initialize_power_manager two_gpus true true 5 true (float_of_int 100) None
    (Some {| enabled := false;
             decode_clock_reduction_percent := 5;
             monitor_tbt := true;
             tbt_threshold_ms := float_of_int 100;
             attrs := None |}, [])
  = initialize_power_manager two_gpus true true 5 true (float_of_int 100) None
      (None, []).
Proof.
  apply (reinitialization_over_inert_instance two_gpus true true 5 true
           (float_of_int 100) None). reflexivity.
Defined.

(** ** Samples that are not numbers *)

Lemma float_add_nan_r x : float_add x S754_nan = S754_nan.
Proof. by destruct x. Qed.

Lemma fold_float_add_nan xs :
  fold_left float_add xs S754_nan = S754_nan.
Proof. induction xs as [|x xs IH]; simpl; [done|exact IH]. Qed.

Lemma fold_float_add_has_nan xs : ∀ acc,
  S754_nan ∈ xs → fold_left float_add xs acc = S754_nan.
Proof.
  induction xs as [|x xs IH]; intros acc Hin.
  - by apply elem_of_nil in Hin.
  - simpl. apply elem_of_cons in Hin as [<-|Hin].
    + rewrite float_add_nan_r. apply fold_float_add_nan.
    + by apply IH.
Qed.

(** The running sum of the compensated summation is the plain sum. *)
Lemma neumaier_running_sum xs : ∀ acc,
  (fold_left neumaier_step xs acc).1 = fold_left float_add xs acc.1.
Proof. induction xs as [|x xs IH]; intros acc; simpl; [done|by rewrite IH]. Qed.

Lemma float_sum_plain_nan xs : S754_nan ∈ xs → float_sum_plain xs = S754_nan.
Proof. apply fold_float_add_has_nan. Qed.

Lemma float_sum_compensated_nan xs :
  S754_nan ∈ xs → float_sum_compensated xs = S754_nan.
Proof.
  intros Hin. pose proof (float_sum_plain_nan xs Hin) as Hplain.
  destruct xs as [|x rest]; [by apply elem_of_nil in Hin|].
  unfold float_sum_compensated, float_sum_plain in *. simpl in Hplain.
  rewrite neumaier_running_sum. simpl. rewrite Hplain.
  by destruct (_ && _).
Qed.

Lemma float_sum_nan compensated xs :
  S754_nan ∈ xs → float_sum compensated xs = S754_nan.
Proof.
  destruct compensated; [apply float_sum_compensated_nan|
                         apply float_sum_plain_nan].
Qed.

(** X11.  A NaN switches the automatic rollback off.  While a NaN sample is
    in the window, or when the threshold itself is NaN, [record_tbt] on an
    enabled, monitoring object only records the sample: it returns normally,
    issues no device call and leaves the phase alone, however large the other
    samples are. *)
Theorem nan_blocks_rollback (w : nvml) (x : float) (self : GPUPowerManager)
    (r : runtime) (log : list nvml_call) :
  enabled self = true → monitor_tbt self = true → attrs self = Some r →
  S754_nan ∈ GPUPowerManager.append_evict x (tbt_values r)
  ∨ tbt_threshold_ms self = S754_nan →
  GPUPowerManager.record_tbt w x (self, log)
  = (Return (),
     (with_attrs
        (set_tbt_values (GPUPowerManager.append_evict x (tbt_values r))) self,
      log)).
Proof.
  intros He Hm Ha Hnan.
  rewrite (record_tbt_enabled w x self r log He Hm Ha).
  assert (float_gt
            (GPUPowerManager.avg_tbt w
               (GPUPowerManager.append_evict x (tbt_values r)))
            (tbt_threshold_ms self) = false) as ->.
  { destruct Hnan as [Hin| ->].
    - unfold GPUPowerManager.avg_tbt. rewrite (float_sum_nan _ _ Hin).
      unfold float_gt, float_div, SFltb. simpl.
      by destruct (tbt_threshold_ms self).
    - reflexivity. }
  by rewrite andb_false_r.
Qed.

Lemma nan_blocks_rollback_witness :
  GPUPowerManager.record_tbt two_gpus (float_of_int 900)
    (manager_on_two_gpus true [S754_nan; float_of_int 800], [])
  = (Return (),
     (manager_on_two_gpus true
        [S754_nan; float_of_int 800; float_of_int 900], [])).
Proof.
  apply (nan_blocks_rollback two_gpus (float_of_int 900)
           (manager_on_two_gpus true [S754_nan; float_of_int 800]) _ []
           eq_refl eq_refl eq_refl).
  left. apply elem_of_cons. by left.
Defined.

(** ** Requests in Prefill *)

Lemma quiet_step w req self log :
  phase self = Some false → req ≠ EnterDecode →
  ∃ self', perform w req (self, log) = (Return (), (self', log))
           ∧ phase self' = Some false.
Proof.
  intros Hphase Hreq.
  destruct (attrs self) as [r|] eqn:Ha;
    [|by unfold phase in Hphase; rewrite Ha in Hphase].
  assert (in_decode_phase r = false) as Hd.
  { unfold phase in Hphase. rewrite Ha in Hphase. by injection Hphase. }
  destruct req as [| |x]; [done| |]; simpl.
  - exists self. split; [|done].
    unfold GPUPowerManager.enter_prefill_phase.
    cbv beta iota zeta delta [bind ret get modify raise attr]. simpl.
    destruct (enabled self); simpl; [|done]. rew_fields. by rewrite Hd.
  - destruct (enabled self) eqn:He.
    2:{ exists self. split; [|done].
        unfold GPUPowerManager.record_tbt. unfold_monad. by rewrite He. }
    destruct (monitor_tbt self) eqn:Hm.
    2:{ exists self. split; [|done].
        unfold GPUPowerManager.record_tbt. unfold_monad. by rewrite He, Hm. }
    rewrite (record_tbt_enabled w x self r log He Hm Ha), Hd. simpl.
    eexists. split; [reflexivity|].
    unfold phase, with_attrs. simpl. rewrite Ha. simpl. by rewrite Hd.
Qed.

(** X12.  Only [enter_decode_phase] leaves Prefill.  On an object in Prefill,
    a sequence of requests without an [enter_decode_phase] returns normally
    at every call, issues no device-management call and ends in Prefill,
    whatever latencies are recorded on the way. *)
Theorem prefill_is_quiet (w : nvml) (rs : list request)
    (self : GPUPowerManager) (log : list nvml_call) :
  phase self = Some false → EnterDecode ∉ rs →
  (serve w rs (self, log)).1 = replicate (length rs) (Return ())
  ∧ (serve w rs (self, log)).2.2 = log
  ∧ phase (serve w rs (self, log)).2.1 = Some false.
Proof.
  revert self. induction rs as [|req rs IH]; intros self Hphase Hrs; simpl.
  - done.
  - apply not_elem_of_cons in Hrs as [Hreq Hrs].
    destruct (quiet_step w req self log Hphase (not_eq_sym Hreq))
      as (self' & -> & Hphase').
    destruct (IH self' Hphase' Hrs) as (Hos & Hlog & Hfinal).
    destruct (serve w rs (self', log)) as [os [self'' log'']]. simpl in *.
    by subst.
Qed.

Lemma prefill_is_quiet_witness :
  (serve two_gpus
     [RecordTbt (float_of_int 500); RecordTbt (float_of_int 600);
      RecordTbt (float_of_int 700); EnterPrefill]
     (manager_on_two_gpus false [], [])).2.2 = [].
Proof.
  apply (prefill_is_quiet two_gpus
           [RecordTbt (float_of_int 500); RecordTbt (float_of_int 600);
            RecordTbt (float_of_int 700); EnterPrefill]
           (manager_on_two_gpus false []) []); [reflexivity|].
  intros Hin. apply list_elem_of_In in Hin. simpl in Hin.
  by destruct Hin as [|[|[|[|]]]].
Defined.

(** ** The exceptions of a request *)

Lemma reset_loop_raises_nvml w ids σ e :
  (for_each ids (GPUPowerManager.reset_device w) σ).1 = Raise e →
  e = NVMLError.
Proof.
  revert σ. induction ids as [|d ids IH]; intros [self log]; simpl.
  - discriminate.
  - unfold bind at 1.
    unfold GPUPowerManager.reset_device at 1, nvmlDeviceGetHandleByIndex,
      nvmlDeviceResetGpuLockedClocks.
    unfold_monad.
    destruct (handle_ok w d); simpl; [|congruence].
    destruct (reset_locked_ok w d); simpl; apply IH.
Qed.

Lemma lock_loop_raises_nvml w ids self r log e :
  attrs self = Some r →
  (∀ d, d ∈ ids → is_Some (target_clocks r !! d)) →
  (for_each ids (GPUPowerManager.lock_device w) (self, log)).1 = Raise e →
  e = NVMLError.
Proof.
  intros Ha. revert log. induction ids as [|d ids IH]; intros log Htgt; simpl.
  - discriminate.
  - unfold bind at 1.
    unfold GPUPowerManager.lock_device at 1, nvmlDeviceGetHandleByIndex.
    unfold_monad.
    destruct (handle_ok w d); simpl; [|congruence]. rew_fields.
    destruct (Htgt d) as [t ->]; [apply elem_of_cons; by left|]. simpl.
    apply IH. intros d' Hd'. apply Htgt, elem_of_cons. by right.
Qed.

Lemma perform_raises_nvml w req self log e :
  complete self → (perform w req (self, log)).1 = Raise e → e = NVMLError.
Proof.
  intros (He & r & Ha & Htgt). destruct req as [| |x]; simpl.
  - unfold GPUPowerManager.enter_decode_phase. unfold_monad. rew_fields.
    destruct (in_decode_phase r); simpl; [discriminate|]. rew_fields.
    pose proof (lock_loop_raises_nvml w (device_ids r) self r log) as Hloop.
    destruct (for_each _ _ _) as [[[]|e'] σ1]; simpl in *; [discriminate|].
    intros Hraise. injection Hraise as <-. by apply Hloop.
  - unfold GPUPowerManager.enter_prefill_phase, GPUPowerManager.reset_clocks.
    cbv beta iota zeta delta [bind ret get modify raise attr]. rew_fields.
    destruct (in_decode_phase r); simpl; [|discriminate]. rew_fields.
    pose proof (reset_loop_raises_nvml w (device_ids r) (self, log)) as Hloop.
    destruct (for_each _ _ _) as [[[]|e'] σ1]; simpl in *; [discriminate|].
    intros Hraise. injection Hraise as <-. by apply Hloop.
  - destruct (monitor_tbt self) eqn:Hm.
    2:{ unfold GPUPowerManager.record_tbt. unfold_monad. by rewrite He, Hm. }
    rewrite (record_tbt_enabled w x self r log He Hm Ha).
    set (appended := with_attrs _ self).
    destruct (_ && _ && _); [|discriminate].
    unfold bind, GPUPowerManager.reset_clocks.
    cbv beta iota zeta delta [bind ret get modify raise attr]. rew_fields.
    pose proof (reset_loop_raises_nvml w (device_ids r) (appended, log))
      as Hloop.
    destruct (for_each _ _ _) as [[[]|e'] σ1]; simpl in *; [discriminate|].
    intros Hraise. injection Hraise as <-. by apply Hloop.
Qed.

Lemma complete_same_config a b :
  config_of a = config_of b → complete b → complete a.
Proof.
  unfold config_of. intros Hcfg (He & r & Ha & Htgt).
  injection Hcfg as He' _ _ _ Hrec. rewrite Ha in Hrec. simpl in Hrec.
  destruct (attrs a) as [r'|] eqn:Ha'; simpl in Hrec; [|discriminate].
  injection Hrec as Hids _ Htargets.
  split; [congruence|]. exists r'. split; [done|].
  rewrite Hids, Htargets. exact Htgt.
Qed.

Lemma serve_raises_nvml w rs : ∀ self log e,
  complete self → Raise e ∈ (serve w rs (self, log)).1 → e = NVMLError.
Proof.
  induction rs as [|req rs IH]; intros self log e Hc; simpl.
  - intros Hin. by apply elem_of_nil in Hin.
  - pose proof (perform_raises_nvml w req self log) as Hstep.
    pose proof (perform_keeps_config w req (self, log)) as Hcfg.
    destruct (perform w req (self, log)) as [o [self' log']]. simpl in *.
    pose proof (IH self' log' e (complete_same_config _ _ Hcfg Hc)) as Hrest.
    destruct (serve w rs (self', log')) as [os σ2]. simpl in *.
    intros Hin. apply elem_of_cons in Hin as [<-|Hin]; [|by apply Hrest].
    by apply (Hstep e Hc).
Qed.

(** X13.  On an object that the constructor returned, a request can fail in
    one way only: whatever the platform does later, every call of a request
    sequence either returns normally or raises [NVMLError]; no [KeyError] for
    a missing target clock and no [AttributeError] for a missing attribute
    can arise. *)
Theorem constructed_object_raises_only_NVMLError (w w' : nvml) (en : bool)
    (reduction : Z) (mon : bool) (thr : float) (ids : option (list Z))
    (log log' log'' : list nvml_call) (self : GPUPowerManager)
    (rs : list request) :
  GPUPowerManager.__init__ w en reduction mon thr ids ((), log)
    = (Return self, ((), log')) →
  Forall (λ o, o = Return () ∨ o = Raise NVMLError)
    (serve w' rs (self, log'')).1.
Proof.
  intros Hinit. apply Forall_forall. intros [[]|e] Hin; [by left|right].
  f_equal. revert Hin.
  destruct (init_returns _ _ _ _ _ _ _ _ _ Hinit)
    as [[Hoff _]|[Hon (r & Ha & _ & _ & Htargets)]].
  - rewrite (inert_serve w' rs self log'' Hoff). simpl.
    intros Hin. apply elem_of_replicate in Hin as [Hin _]. discriminate.
  - apply serve_raises_nvml. split; [done|]. exists r. split; [done|].
    intros d Hd. destruct (Htargets d Hd) as (m & t & _ & _ & Ht). by eexists.
Qed.

Lemma constructed_object_raises_only_NVMLError_witness :
  Forall (λ o, o = Return () ∨ o = Raise NVMLError)
    (serve gpu0_lost [EnterDecode; RecordTbt (float_of_int 50)]
       (manager_on_two_gpus false [], [])).1.
Proof.
  eapply (constructed_object_raises_only_NVMLError two_gpus gpu0_lost).
  exact constructor_on_two_gpus.
Defined.

(** ** A reduction percentage outside [0,100] *)







(** ** Samples from before a transition *)

(** X15.  Entering Decode does not clear the latency window, so samples
    recorded earlier count at once.  On an enabled, monitoring object in
    Prefill whose devices have handles and targets: when the window with one
    more sample holds at least three samples whose mean exceeds the
    threshold, [enter_decode_phase] followed by a single [record_tbt] of
    that sample ends in Prefill again, after the handle look-ups of the
    transition and a reset of every device. *)
Theorem stale_samples_undo_decode_at_once (w : nvml) (x : float)
    (self : GPUPowerManager) (r : runtime) (log : list nvml_call) :
  enabled self = true → monitor_tbt self = true → attrs self = Some r →
  in_decode_phase r = false →
  (∀ d, d ∈ device_ids r → handle_ok w d = true) →
  (∀ d, d ∈ device_ids r → is_Some (target_clocks r !! d)) →
  let values := GPUPowerManager.append_evict x (tbt_values r) in
  (3 ≤ length values)%nat →
  float_gt (GPUPowerManager.avg_tbt w values) (tbt_threshold_ms self) = true →
  serve w [EnterDecode; RecordTbt x] (self, log)
  = ([Return (); Return ()],
     (with_attrs (set_tbt_values values) self,
      log ++ (GetHandleByIndex_call <$> device_ids r)
          ++ reset_calls (device_ids r))).
Proof.
  intros He Hm Ha Hd Hok Htgt values Hlen Hgt. simpl.
  rewrite (enter_decode_from_prefill w self r log He Ha Hd Hok Htgt).
  set (decoding := with_attrs (set_in_decode_phase true) self).
  rewrite (record_tbt_enabled w x decoding (set_in_decode_phase true r) _
             He Hm (with_attrs_phase_attrs true self r Ha)).
  simpl tbt_values. fold values. simpl in_decode_phase.
  change (tbt_threshold_ms decoding) with (tbt_threshold_ms self).
  rewrite Hgt. apply Nat.leb_le in Hlen. rewrite Hlen. simpl.
  unfold bind.
  set (appended := with_attrs (set_tbt_values values) decoding).
  rewrite (reset_clocks_complete w appended
             (set_tbt_values values (set_in_decode_phase true r)) _ He).
  - unfold modify. simpl. rewrite <- app_assoc.
    assert (with_attrs (set_in_decode_phase false) appended
            = with_attrs (set_tbt_values values) self) as ->; [|done].
    unfold appended, decoding, with_attrs. simpl. rewrite Ha. simpl.
    unfold set_in_decode_phase, set_tbt_values. simpl. by rewrite <- Hd.
  - unfold appended, decoding, with_attrs. simpl. by rewrite Ha.
  - exact Hok.
Qed.

Lemma stale_samples_undo_decode_at_once_witness :
  serve two_gpus [EnterDecode; RecordTbt (float_of_int 170)]
    (manager_on_two_gpus false [float_of_int 150; float_of_int 160], [])
  = ([Return (); Return ()],
     (manager_on_two_gpus false
        [float_of_int 150; float_of_int 160; float_of_int 170],
      [GetHandleByIndex_call 0; GetHandleByIndex_call 1;
       GetHandleByIndex_call 0; ResetGpuLockedClocks_call 0;
       GetHandleByIndex_call 1; ResetGpuLockedClocks_call 1])).
Proof.
  apply (stale_samples_undo_decode_at_once two_gpus (float_of_int 170)
           (manager_on_two_gpus false [float_of_int 150; float_of_int 160])
           _ [] eq_refl eq_refl eq_refl eq_refl).
  - intros d _. reflexivity.
  - intros d Hd. apply list_elem_of_In in Hd.
    destruct Hd as [<-|[<-|[]]]; by eexists.
  - simpl. lia.
  - reflexivity.
Defined.
